(** * enhanced_burst_generator.py: a shallow embedding

    The generator starts a pool of listening servers on consecutive ports
    and then a burst of clients, each of which connects to one randomly
    chosen server, sends [TEST_MSG] and closes.

    Python integers are unbounded, so they are [Z].  Exceptions are a
    data type and every call that can raise returns a [result].  The
    operating system is explicit: which ports can be bound is a function
    [free], and what the program did to it is recorded in a [Host]
    (server side) or a [Net] (client side).  Loops that need not
    terminate take fuel and return [None] when it runs out. *)

From Stdlib Require Import Strings.String Strings.Byte.
From Stdlib Require Import ZArith List Bool Lia Arith.
Import ListNotations.
Open Scope Z_scope.

(** ** Python values shared by both sides *)

Module Py.

(** The exception classes the program can meet.  [socket.error] is an
    alias of [OSError]; timeouts and refused connections are subclasses
    of it.  [OverflowError] is what the socket module raises for a port
    outside 0..65535 or a backlog that is no C int, [ValueError] what
    [random.randint] raises on an empty range, [AttributeError] what the
    use of a deleted attribute raises. *)
Inductive exn : Type :=
| OSError
| OverflowError
| ValueError
| IndexError
| AttributeError
| EbgException (value : Z).

Inductive result (A : Type) : Type :=
| Returned (a : A)
| Raised (e : exn).
Arguments Returned {A} a.
Arguments Raised {A} e.

(** [except socket.error] catches exactly the [OSError] family. *)
Definition is_socket_error (e : exn) : bool :=
  match e with
  | OSError => true
  | _ => false
  end.

(** Ports the socket module accepts in an address. *)
Definition port_in_range (port : Z) : bool :=
  (0 <=? port) && (port <=? 65535).

(** [l[i]] on a Python list: a negative index counts from the end, an
    index outside the list raises [IndexError]. *)
Definition getitem (l : list Z) (i : Z) : result Z :=
  let n := Z.of_nat (length l) in
  let j := if i <? 0 then i + n else i in
  if (0 <=? j) && (j <? n)
  then Returned (nth (Z.to_nat j) l 0)
  else Raised IndexError.

(** The integers [a, a+1, ..., a+n-1]. *)
Fixpoint zrange (a : Z) (n : nat) : list Z :=
  match n with
  | O => []
  | S k => a :: zrange (a + 1) k
  end.

(** The message every client sends. *)
Definition TEST_MSG : list Byte.byte :=
  String.list_byte_of_string "Hello, eBPF!"%string.

End Py.
Import Py.

(** ** class EbgException *)

Module Ebg.

Definition CLIENT_NUM_ERROR : Z := 1.
Definition SERVER_NUM_ERROR : Z := 2.
Definition THREAD_NUM_ERROR : Z := 3.
Definition NO_PORT_TO_USE : Z := 4.

(** [__str__], the message of an exception with this [value]. *)
Definition __str__ (value : Z) : string :=
  if value =? CLIENT_NUM_ERROR then
    "Arguments' error: the number of client can not be 0!"%string
  else if value =? SERVER_NUM_ERROR then
    "Arguments' error: the number of server can not be 0!"%string
  else if value =? THREAD_NUM_ERROR then
    "Arguments' error: the number of thread each server can not be 0!"%string
  else if value =? NO_PORT_TO_USE then
    "Port error: no one is available after specified port!"%string
  else "Unknown error!"%string.

End Ebg.

(** ** The operating system, as far as the program touches it *)

Module Sys.

(** What the system has seen from the servers: every port a bind was
    attempted on, oldest first, and the ports asked for by number on
    which a socket now listens.  A socket bound through port 0 listens on
    a port of the system's choosing; the record does not show it. *)
Record Host : Type := mkHost {
  bind_log : list Z;
  listening : list Z
}.

Definition fresh_host : Host := mkHost [] [].

(** [sock.bind(('localhost', port))].  A port outside 0..65535 is refused
    by the socket module before the system call; a port in range is bound
    when no other socket holds it. *)
Definition sock_bind (free : Z -> bool) (port : Z) : result unit :=
  if port_in_range port then
    if free port then Returned tt else Raised OSError
  else Raised OverflowError.

(** [sock.listen(backlog)]: the backlog goes to the system as a C int,
    and a value that is none is refused with [OverflowError]. *)
Definition sock_listen (backlog : Z) : result unit :=
  if (-2147483648 <=? backlog) && (backlog <=? 2147483647)
  then Returned tt
  else Raised OverflowError.

(** What the system has seen from one client: how many sockets it has
    created, which of them are still open, and the payloads it has sent,
    each with the port it went to. *)
Record Net : Type := mkNet {
  next_fd : nat;
  open_fds : list nat;
  delivered : list (Z * list Byte.byte)
}.

Definition fresh_net : Net := mkNet 0 [] [].


(** [s.connect(('localhost', port))]: the same range check as for bind,
    then the peer answers ([ok]) or the call fails with a socket error
    (refused, timed out). *)
Definition sock_connect (port : Z) (ok : bool) : result unit :=
  if port_in_range port then
    if ok then Returned tt else Raised OSError
  else Raised OverflowError.

(** [s.send(msg)]: on success the payload is on its way to [port]. *)
Definition sock_send (port : Z) (msg : list Byte.byte) (ok : bool) (n : Net)
  : result unit * Net :=
  if ok
  then (Returned tt, mkNet (next_fd n) (open_fds n) (delivered n ++ [(port, msg)]))
  else (Raised OSError, n).

(** A client socket object: its descriptor and the two options the
    program sets on it (the timeout in milliseconds). *)
Record socket : Type := mkSocket {
  fd : nat;
  timeout_ms : option Z;
  reuseaddr : bool
}.

(** [s.close()] *)
Definition sock_close (s : socket) (n : Net) : Net :=
  mkNet (next_fd n) (remove Nat.eq_dec (fd s) (open_fds n)) (delivered n).

(** [socket.socket()]: the system hands out a new socket ([ok]) or has
    none left and the call fails with a socket error. *)
Definition sock_create (ok : bool) (n : Net) : result socket * Net :=
  if ok
  then (Returned (mkSocket (next_fd n) None false),
        mkNet (S (next_fd n)) (open_fds n ++ [next_fd n]) (delivered n))
  else (Raised OSError, n).

(** [s.settimeout(.5)] and [s.setsockopt(SOL_SOCKET, SO_REUSEADDR, 1)] *)
Definition settimeout (s : socket) (ms : Z) : socket :=
  mkSocket (fd s) (Some ms) (reuseaddr s).
Definition set_reuseaddr (s : socket) : socket :=
  mkSocket (fd s) (timeout_ms s) true.

(** How one connection attempt goes: whether the system has a socket
    for it, and how the peer answers the connect and the send. *)
Record attempt : Type := mkAttempt {
  socket_ok : bool;
  connect_ok : bool;
  send_ok : bool
}.

Definition succeeds (a : attempt) : bool :=
  socket_ok a && connect_ok a && send_ok a.

Definition all_free : Z -> bool := fun _ => true.
Definition free_except (busy : Z) : Z -> bool := fun p => negb (p =? busy).

(** What comes in at one turn of an acceptor: how [accept] ends and, if
    a connection was accepted, the bytes the peer sent or the error of
    the read. *)
Record incoming : Type := mkIncoming {
  accept_result : result unit;
  recv_result : result (list Byte.byte)
}.

(** [con.recv(bufsize)]: at most [bufsize] bytes of what was sent. *)
Definition sock_recv (bufsize : nat) (a : incoming) : result (list Byte.byte) :=
  match recv_result a with
  | Returned sent => Returned (firstn bufsize sent)
  | Raised e => Raised e
  end.

(** What an acceptor has done so far: the connections it accepted and
    the data its reads returned, oldest first. *)
Record served : Type := mkServed {
  accepted : nat;
  data_read : list (list Byte.byte)
}.

End Sys.

(** ** class server_thread *)

Module server_thread.

Record t : Type := mk {
  port : Z;
  threads : Z;
  started : bool
}.

(** [__init__]: create the socket, bind it, listen with a backlog of
    [threads].  When the bind or the listen raises, no socket listens. *)
Definition init (free : Z -> bool) (port threads : Z) (h : Sys.Host)
  : result t * Sys.Host :=
  let h1 := Sys.mkHost (Sys.bind_log h ++ [port]) (Sys.listening h) in
  match Sys.sock_bind free port with
  | Raised e => (Raised e, h1)
  | Returned _ =>
      match Sys.sock_listen threads with
      | Raised e => (Raised e, h1)
      | Returned _ =>
          (Returned (mk port threads false),
           Sys.mkHost (Sys.bind_log h1)
             (Sys.listening h1 ++ if port =? 0 then [] else [port]))
      end
  end.

(** [Thread.start]: from now on the acceptors of this server run. *)
Definition start (s : t) : t := mk (port s) (threads s) true.

(** [__run__], the loop of one acceptor: accept a connection, read up to
    16 bytes, drop them; a socket error of either call is swallowed and
    the loop goes on.  [peer k] is what comes in at turn [k].  The result
    is the exception that ended the loop, or [None] when it is still
    running after [fuel] turns, with what it has done. *)
Fixpoint __run__ (fuel : nat) (peer : nat -> Sys.incoming) (k : nat)
    (done : Sys.served) : option exn * Sys.served :=
  match fuel with
  | O => (None, done)
  | S fuel' =>
      match Sys.accept_result (peer k) with
      | Raised e =>
          if is_socket_error e then __run__ fuel' peer (S k) done
          else (Some e, done)
      | Returned _ =>
          let done1 := Sys.mkServed (S (Sys.accepted done)) (Sys.data_read done) in
          match Sys.sock_recv 16 (peer k) with
          | Raised e =>
              if is_socket_error e then __run__ fuel' peer (S k) done1
              else (Some e, done1)
          | Returned data =>
              __run__ fuel' peer (S k)
                (Sys.mkServed (Sys.accepted done1) (Sys.data_read done1 ++ [data]))
          end
      end
  end.

End server_thread.

(** ** class Server *)

Module Server.

Record t : Type := mk {
  threads : Z;
  s_n : Z;
  s_list : list server_thread.t
}.

(** [__init__] *)
Definition init (threads n : Z) : t := mk threads n [].

(** The [while] loop of [start].  The body is a [try] with a [finally]
    and no [except]: when the constructor raises, [s_port] is incremented
    and the exception leaves the loop and the method.  The object appended
    to [s_list] is the one started two lines later, so the list holds the
    started thread. *)
Fixpoint start_loop (free : Z -> bool) (fuel : nat) (self : t)
    (s_counter s_port : Z) (s_ports : list Z) (h : Sys.Host)
  : option (result (list Z) * t * Sys.Host) :=
  if (s_counter <? s_n self) || (65535 <=? s_port) then
    match fuel with
    | O => None
    | S fuel' =>
        match server_thread.init free s_port (threads self) h with
        | (Raised e, h') => Some (Raised e, self, h')
        | (Returned s, h') =>
            start_loop free fuel'
              (mk (threads self) (s_n self) (s_list self ++ [server_thread.start s]))
              (s_counter + 1) (s_port + 1) (s_ports ++ [s_port]) h'
        end
    end
  else Some (Returned s_ports, self, h).

(** Iterations that are always enough from [s_port]: an iteration that
    does not raise has bound a port of 0..65535, and the port only grows. *)
Definition start_fuel (s_port : Z) : nat := S (Z.to_nat (65536 - s_port)).

(** [start] *)
Definition start (free : Z -> bool) (self : t) (s_port : Z) (h : Sys.Host)
  : option (result (list Z) * t * Sys.Host) :=
  start_loop free (start_fuel s_port) self 0 s_port [] h.

End Server.

(** ** Random choices *)

Module Rand.

(** One way an execution with random choices can go: the values
    [randint] returned, oldest first, the probability of exactly these
    values, written as one in [odds], and where the execution ended. *)
Record run (A : Type) : Type := mkRun {
  draws : list Z;
  odds : Z;
  outcome : A
}.
Arguments mkRun {A} draws odds outcome.
Arguments draws {A} r.
Arguments odds {A} r.
Arguments outcome {A} r.

(** [random.randint(a, b)]: every integer of [a..b] is equally likely;
    an empty range raises [ValueError]. *)
Definition randint (a b : Z) : result (list Z) :=
  if b <? a then Raised ValueError
  else Returned (zrange a (Z.to_nat (b - a + 1))).

(** All lists of [c] values, each taken from [choices]. *)
Fixpoint vectors (choices : list Z) (c : nat) : list (list Z) :=
  match c with
  | O => [[]]
  | S k => flat_map (fun i => map (cons i) (vectors choices k)) choices
  end.

End Rand.

(** ** class client_thread *)

Module client_thread.

Record t : Type := mk {
  addr : string * Z;
  started : bool
}.

(** [__init__] *)
Definition init (s_port : Z) : t := mk ("localhost"%string, s_port) false.

(** [Thread.start] *)
Definition start (c : t) : t := mk (addr c) true.

(** The [try] suite of [connect]. *)
Definition connect_try (self : t) (a : Sys.attempt) (n : Sys.Net)
  : result bool * Sys.Net :=
  match Sys.sock_connect (snd (addr self)) (Sys.connect_ok a) with
  | Raised e => (Raised e, n)
  | Returned _ =>
      match Sys.sock_send (snd (addr self)) TEST_MSG (Sys.send_ok a) n with
      | (Raised e, n') => (Raised e, n')
      | (Returned _, n') => (Returned true, n')
      end
  end.

(** [except socket.error as exc: return False] *)
Definition connect_except (r : result bool) : result bool :=
  match r with
  | Raised e => if is_socket_error e then Returned false else Raised e
  | Returned b => Returned b
  end.

(** [connect]: open a socket and set its options; then, in the [try],
    connect and send, and close the socket in the [finally] clause
    whatever happened.  The socket is created before the [try]: when the
    system has none, that error leaves the method. *)
Definition connect (self : t) (a : Sys.attempt) (n : Sys.Net)
  : result bool * Sys.Net :=
  match Sys.sock_create (Sys.socket_ok a) n with
  | (Raised e, n0) => (Raised e, n0)
  | (Returned s0, n0) =>
      let s := Sys.set_reuseaddr (Sys.settimeout s0 500) in
      let (r, n1) := connect_try self a n0 in
      (connect_except r, Sys.sock_close s n1)
  end.

(** [run]: [while not self.connect(): pass].  [peer k] is how attempt
    number [k] goes. *)
Fixpoint run (fuel : nat) (self : t) (peer : nat -> Sys.attempt) (k : nat)
    (n : Sys.Net) : option (result unit * Sys.Net) :=
  match fuel with
  | O => None
  | S fuel' =>
      match connect self (peer k) n with
      | (Raised e, n') => Some (Raised e, n')
      | (Returned true, n') => Some (Returned tt, n')
      | (Returned false, n') => run fuel' self peer (S k) n'
      end
  end.

End client_thread.

(** ** class Client *)

Module Client.

(** [c_list] is [None] once [join] has deleted the attribute. *)
Record t : Type := mk {
  s_ports : list Z;
  c_n : Z;
  c_list : option (list client_thread.t)
}.

(** [__init__] *)
Definition init (s_ports : list Z) (n : Z) : t := mk s_ports n (Some []).

(** The [for] loop of [start], with [iters] iterations to go.  The thread
    appended to [c_list] is the one started on the next line; without a
    [c_list] the append raises and the thread is not started. *)
Fixpoint start_loop (iters : nat) (s_n : Z) (self : t)
    (draws : list Z) (odds : Z) : list (Rand.run (result unit * t)) :=
  match iters with
  | O => [Rand.mkRun draws odds (Returned tt, self)]
  | S iters' =>
      match Rand.randint 0 (s_n - 1) with
      | Raised e => [Rand.mkRun draws odds (Raised e, self)]
      | Returned choices =>
          flat_map (fun tar_index =>
            let draws' := draws ++ [tar_index] in
            let odds' := odds * Z.of_nat (length choices) in
            match getitem (s_ports self) tar_index with
            | Raised e => [Rand.mkRun draws' odds' (Raised e, self)]
            | Returned p =>
                let c := client_thread.init p in
                match c_list self with
                | None => [Rand.mkRun draws' odds' (Raised AttributeError, self)]
                | Some l =>
                    start_loop iters' s_n
                      (mk (s_ports self) (c_n self)
                          (Some (l ++ [client_thread.start c])))
                      draws' odds'
                end
            end) choices
      end
  end.

(** [start]: every way the method can go, one [Rand.run] each. *)
Definition start (self : t) : list (Rand.run (result unit * t)) :=
  let s_n := Z.of_nat (length (s_ports self)) in
  start_loop (Z.to_nat (c_n self)) s_n self [] 1.

(** The [for] loop of [join].  The drivers share nothing but the target
    list, so each runs against its own view of the network; [peers i] is
    how the attempts of driver number [i] go.  [i.join()] returns when
    the thread has ended, normally or by an exception. *)
Fixpoint join_loop (fuel : nat) (c_list : list client_thread.t) (i : nat)
    (peers : nat -> nat -> Sys.attempt)
  : option (list (result unit * Sys.Net)) :=
  match c_list with
  | [] => Some []
  | c :: rest =>
      match client_thread.run fuel c (peers i) 0%nat Sys.fresh_net with
      | None => None
      | Some out =>
          match join_loop fuel rest (S i) peers with
          | None => None
          | Some outs => Some (out :: outs)
          end
      end
  end.

(** [join]: what each driver had done when the method returned, and the
    client, whose [c_list] the method deletes at its end.  On a client
    without a [c_list] the loop header raises. *)
Definition join (fuel : nat) (self : t) (peers : nat -> nat -> Sys.attempt)
  : option (result (list (result unit * Sys.Net)) * t) :=
  match c_list self with
  | None => Some (Raised AttributeError, self)
  | Some l =>
      match join_loop fuel l 0%nat peers with
      | None => None
      | Some outs => Some (Returned outs, mk (s_ports self) (c_n self) None)
      end
  end.

End Client.

(** ** The script: argument checks and server start-up *)

Module Main.

(** Lines 178 to 194: the three checks, then [Server.start] and the check
    for an empty port list.  Returns what the rest of the script goes on
    with, the server pool and its ports. *)
Definition main (free : Z -> bool) (CLIENT_NUM SERVER_NUM THREAD_NUM PORT : Z)
    (h : Sys.Host) : option (result (Server.t * list Z) * Sys.Host) :=
  if CLIENT_NUM <=? 0 then Some (Raised (EbgException Ebg.CLIENT_NUM_ERROR), h)
  else if SERVER_NUM <=? 0 then Some (Raised (EbgException Ebg.SERVER_NUM_ERROR), h)
  else if THREAD_NUM <=? 0 then Some (Raised (EbgException Ebg.THREAD_NUM_ERROR), h)
  else
    let s := Server.init THREAD_NUM SERVER_NUM in
    match Server.start free s PORT h with
    | None => None
    | Some (Raised e, _, h') => Some (Raised e, h')
    | Some (Returned s_ports, s', h') =>
        if negb (Z.of_nat (length s_ports) =? 0)
        then Some (Returned (s', s_ports), h')
        else Some (Raised (EbgException Ebg.NO_PORT_TO_USE), h')
    end.

End Main.

(** ** Vocabulary of the properties *)

(** Sockets are numbered as they are created, so an open one has a
    number below [next_fd]. *)
Definition net_wf (n : Sys.Net) : Prop :=
  forall s, In s (Sys.open_fds n) -> (s < Sys.next_fd n)%nat.

(** Attempt number [k0] is the first one the peer lets succeed. *)
Definition first_success (peer : nat -> Sys.attempt) (k0 : nat) : Prop :=
  Sys.succeeds (peer k0) = true /\
  forall j, (j < k0)%nat -> Sys.succeeds (peer j) = false.

(** What is known of a driver that has ended: it made [k0 + 1] attempts,
    the last of which was the first to succeed, and sent the payload once. *)
Definition ended_after (d : client_thread.t) (k0 : nat)
    (out : result unit * Sys.Net) : Prop :=
  out = (Returned tt,
         Sys.mkNet (S k0) [] [(snd (client_thread.addr d), TEST_MSG)]).

(** The ports of a list that are asked for by number; port 0 asks for
    a port of the system's choosing. *)
Definition named_ports (l : list Z) : list Z :=
  filter (fun p => negb (p =? 0)) l.

(** The system has a socket for every attempt of this driver. *)
Definition sockets_created (peer : nat -> Sys.attempt) : Prop :=
  forall k, Sys.socket_ok (peer k) = true.

(** A driver whose target port can be addressed. *)
Definition driver_in_range (d : client_thread.t) : Prop :=
  port_in_range (snd (client_thread.addr d)) = true.

(** Payloads sent by all the drivers [join] waited for. *)
Definition sends (outs : list (result unit * Sys.Net)) : nat :=
  list_sum (map (fun out => length (Sys.delivered (snd out))) outs).

(** The drivers launched when [randint] returned the indices [v]. *)
Definition launched (s_ports : list Z) (v : list Z) : list client_thread.t :=
  map (fun i => client_thread.mk
                  ("localhost"%string, nth (Z.to_nat i) s_ports 0) true) v.

(** How a driver whose port is outside 0..65535 ends at its first
    attempt [a]: in the error of the connect, its one socket closed
    again, or, when the system had no socket, in the error of that. *)
Definition died_at_once (a : Sys.attempt) : result unit * Sys.Net :=
  if Sys.socket_ok a
  then (Raised OverflowError, Sys.mkNet 1 [] [])
  else (Raised OSError, Sys.mkNet 0 [] []).

(** What comes in at this turn does not end an acceptor: its calls
    succeed or fail with a socket error. *)
Definition swallowed (a : Sys.incoming) : bool :=
  match Sys.accept_result a with
  | Raised e => is_socket_error e
  | Returned _ =>
      match Sys.recv_result a with
      | Raised e => is_socket_error e
      | Returned _ => true
      end
  end.

(** * Properties *)

(** ** Server.start *)

Section ServerStart.

Variable free : Z -> bool.

Local Ltac bind_cases p :=
  unfold server_thread.init;
  destruct (Sys.sock_bind free p) as [[]|?] eqn:?;
  [destruct (Sys.sock_listen _) as [[]|?] eqn:? |].

Lemma sock_bind_ok_range (p : Z) :
  Sys.sock_bind free p = Returned tt -> 0 <= p <= 65535 /\ free p = true.
Proof.
  unfold Sys.sock_bind, port_in_range.
  destruct (0 <=? p) eqn:Hlo; destruct (p <=? 65535) eqn:Hhi; simpl;
    destruct (free p); try discriminate.
  intros _. split; [lia | reflexivity].
Qed.

Lemma sock_bind_free (p : Z) :
  0 <= p <= 65535 -> free p = true -> Sys.sock_bind free p = Returned tt.
Proof.
  intros Hr Hf. unfold Sys.sock_bind, port_in_range.
  replace (0 <=? p) with true by (symmetry; apply Z.leb_le; lia).
  replace (p <=? 65535) with true by (symmetry; apply Z.leb_le; lia).
  simpl. now rewrite Hf.
Qed.

(** One unfolding of the loop when its condition holds. *)
Lemma start_loop_step fuel self c q acc h :
  (c <? Server.s_n self) || (65535 <=? q) = true ->
  Server.start_loop free (S fuel) self c q acc h =
  match server_thread.init free q (Server.threads self) h with
  | (Raised e, h') => Some (Raised e, self, h')
  | (Returned s, h') =>
      Server.start_loop free fuel
        (Server.mk (Server.threads self) (Server.s_n self)
           (Server.s_list self ++ [server_thread.start s]))
        (c + 1) (q + 1) (acc ++ [q]) h'
  end.
Proof. intros H. simpl. now rewrite H. Qed.

Lemma start_loop_exit fuel self c q acc h :
  (c <? Server.s_n self) || (65535 <=? q) = false ->
  Server.start_loop free fuel self c q acc h = Some (Returned acc, self, h).
Proof. intros H. destruct fuel; simpl; now rewrite H. Qed.

(** The loop always ends within [start_fuel] iterations. *)
Lemma start_loop_total fuel : forall self c q acc h,
  (Z.to_nat (65536 - q) < fuel)%nat ->
  exists out, Server.start_loop free fuel self c q acc h = Some out.
Proof.
  induction fuel as [|fuel IH]; intros self c q acc h Hf; [lia|].
  destruct ((c <? Server.s_n self) || (65535 <=? q)) eqn:Hc.
  - rewrite start_loop_step by exact Hc.
    bind_cases q.
    + apply sock_bind_ok_range in Heqr. apply IH. lia.
    + eauto.
    + eauto.
  - rewrite start_loop_exit by exact Hc. eauto.
Qed.

(** Ports are only ever added at the end of [s_ports]. *)
Lemma start_loop_extends fuel : forall self c q acc h ports s' h',
  Server.start_loop free fuel self c q acc h = Some (Returned ports, s', h') ->
  exists more, ports = acc ++ more.
Proof.
  induction fuel as [|fuel IH]; intros self c q acc h ports s' h' H.
  - simpl in H. destruct ((c <? Server.s_n self) || (65535 <=? q)); [discriminate|].
    inversion H; subst. exists []. now rewrite app_nil_r.
  - destruct ((c <? Server.s_n self) || (65535 <=? q)) eqn:Hc.
    + rewrite start_loop_step in H by exact Hc.
      revert H. bind_cases q; intros H; [|discriminate|discriminate].
      apply IH in H. destruct H as [more ->].
      exists (q :: more). now rewrite <- app_assoc.
    + rewrite start_loop_exit in H by exact Hc.
      inversion H; subst. exists []. now rewrite app_nil_r.
Qed.

(** When the first bind fails, the exception leaves [start] at once. *)
Lemma start_loop_first_bind_fails fuel self c q acc h e :
  (c <? Server.s_n self) || (65535 <=? q) = true ->
  Sys.sock_bind free q = Raised e ->
  Server.start_loop free (S fuel) self c q acc h =
  Some (Raised e, self, Sys.mkHost (Sys.bind_log h ++ [q]) (Sys.listening h)).
Proof.
  intros Hc Hb. rewrite start_loop_step by exact Hc.
  unfold server_thread.init. now rewrite Hb.
Qed.

(** Entered with the loop condition true, the loop cannot return the
    list it was given: it raises or it appends. *)
Lemma start_loop_entered fuel self c q acc h ports s' h' :
  (c <? Server.s_n self) || (65535 <=? q) = true ->
  Server.start_loop free fuel self c q acc h = Some (Returned ports, s', h') ->
  Sys.sock_bind free q = Returned tt /\ exists more, ports = acc ++ q :: more.
Proof.
  intros Hc H. destruct fuel as [|fuel].
  - simpl in H. rewrite Hc in H. discriminate.
  - rewrite start_loop_step in H by exact Hc.
    revert H. bind_cases q; intros H; [|discriminate|discriminate].
    split; [reflexivity|].
    apply start_loop_extends in H. destruct H as [more ->].
    exists more. now rewrite <- app_assoc.
Qed.

(** From port 65535 on, the condition [s_port >= 65535] keeps the loop
    going whatever the counter says, so it can only end by an exception. *)
Lemma start_loop_high_port fuel : forall self c q acc h r s' h',
  65535 <= q ->
  Server.start_loop free fuel self c q acc h = Some (r, s', h') ->
  exists e, r = Raised e.
Proof.
  induction fuel as [|fuel IH]; intros self c q acc h r s' h' Hq H.
  - simpl in H.
    replace (65535 <=? q) with true in H by (symmetry; apply Z.leb_le; lia).
    rewrite orb_true_r in H. discriminate.
  - rewrite start_loop_step in H.
    + revert H. bind_cases q; intros H.
      * apply IH in H; [exact H | lia].
      * inversion H; subst. eauto.
      * inversion H; subst. eauto.
    + replace (65535 <=? q) with true by (symmetry; apply Z.leb_le; lia).
      apply orb_true_r.
Qed.

Lemma named_ports_app (l1 l2 : list Z) :
  named_ports (l1 ++ l2) = named_ports l1 ++ named_ports l2.
Proof. apply filter_app. Qed.

Lemma named_ports_zrange n : forall q,
  1 <= q -> named_ports (zrange q n) = zrange q n.
Proof.
  induction n as [|n IH]; intros q Hq; [reflexivity|].
  unfold named_ports in *. simpl.
  replace (q =? 0) with false by (symmetry; apply Z.eqb_neq; lia).
  simpl. now rewrite IH by lia.
Qed.

(** A run of free ports that ends below 65535, with a backlog the system
    takes: the loop binds each of them in turn and returns. *)
Lemma start_loop_free_run k : forall fuel self c q acc h,
  (k <= fuel)%nat ->
  c + Z.of_nat k = Server.s_n self ->
  0 <= q -> q + Z.of_nat k < 65535 ->
  (forall x, q <= x < q + Z.of_nat k -> free x = true) ->
  Sys.sock_listen (Server.threads self) = Returned tt ->
  exists s' h',
    Server.start_loop free fuel self c q acc h =
      Some (Returned (acc ++ zrange q k), s', h')
    /\ Sys.bind_log h' = Sys.bind_log h ++ zrange q k
    /\ Sys.listening h' = Sys.listening h ++ named_ports (zrange q k)
    /\ map server_thread.port (Server.s_list s') =
         map server_thread.port (Server.s_list self) ++ zrange q k.
Proof.
  induction k as [|k IH]; intros fuel self c q acc h Hf Hc Hq Hhi Hfree Hlisten.
  - exists self, h. simpl. rewrite !app_nil_r.
    rewrite start_loop_exit; [auto|].
    apply orb_false_iff. split; [apply Z.ltb_ge | apply Z.leb_gt]; lia.
  - destruct fuel as [|fuel]; [lia|].
    rewrite start_loop_step
      by (apply orb_true_iff; left; apply Z.ltb_lt; lia).
    unfold server_thread.init.
    rewrite sock_bind_free by (try apply Hfree; lia).
    rewrite Hlisten.
    edestruct (IH fuel) as (s' & h' & Hrun & Hlog & Hlis & Hsl);
      [| | | | | | exists s', h'; rewrite Hrun, Hlog, Hlis, Hsl ].
    + lia.
    + simpl. lia.
    + lia.
    + lia.
    + intros x Hx. apply Hfree. lia.
    + exact Hlisten.
    + cbn [Sys.bind_log Sys.listening Server.s_list zrange].
      rewrite map_app. cbn [map server_thread.start server_thread.port].
      rewrite <- !app_assoc.
      unfold named_ports. cbn [filter].
      destruct (q =? 0); cbn [negb app]; auto.
Qed.

End ServerStart.

(** The only exceptions that leave [start] are those of bind and of
    listen. *)
Lemma start_loop_raises free fuel : forall self c q acc h e s' h',
  Server.start_loop free fuel self c q acc h = Some (Raised e, s', h') ->
  e = OSError \/ e = OverflowError.
Proof.
  induction fuel as [|fuel IH]; intros self c q acc h e s' h' H.
  - simpl in H. destruct ((c <? Server.s_n self) || (65535 <=? q)); discriminate.
  - destruct ((c <? Server.s_n self) || (65535 <=? q)) eqn:Hc.
    + rewrite start_loop_step in H by exact Hc.
      unfold server_thread.init, Sys.sock_bind, Sys.sock_listen in H.
      destruct (port_in_range q); [destruct (free q)|].
      * destruct ((-2147483648 <=? Server.threads self) &&
                  (Server.threads self <=? 2147483647)).
        -- eapply IH; eassumption.
        -- inversion H; auto.
      * inversion H; auto.
      * inversion H; auto.
    + rewrite start_loop_exit in H by exact Hc. discriminate.
Qed.

Lemma start_total free self p h :
  exists out, Server.start free self p h = Some out.
Proof. apply start_loop_total. unfold Server.start_fuel. lia. Qed.

Lemma start_nonempty free self p h ports s' h' :
  1 <= Server.s_n self ->
  Server.start free self p h = Some (Returned ports, s', h') ->
  exists more, ports = p :: more.
Proof.
  intros HN H. unfold Server.start in H.
  apply start_loop_entered in H.
  - destruct H as [_ [more ->]]. now exists more.
  - apply orb_true_iff. left. apply Z.ltb_lt. lia.
Qed.

(** ** The script *)

(** The script never reaches [raise EbgException(NO_PORT_TO_USE)]. *)
Lemma main_never_no_port free CLIENT_NUM SERVER_NUM THREAD_NUM PORT h h' :
  Main.main free CLIENT_NUM SERVER_NUM THREAD_NUM PORT h <>
  Some (Raised (EbgException Ebg.NO_PORT_TO_USE), h').
Proof.
  unfold Main.main.
  destruct (CLIENT_NUM <=? 0); [discriminate|].
  destruct (SERVER_NUM <=? 0) eqn:HS; [discriminate|].
  destruct (THREAD_NUM <=? 0); [discriminate|].
  apply Z.leb_gt in HS.
  destruct (Server.start free (Server.init THREAD_NUM SERVER_NUM) PORT h) as [[[[ports|e] s'] h1]|] eqn:Hst;
    [| |discriminate].
  - apply start_nonempty in Hst; [|simpl; lia].
    destruct Hst as [more ->].
    change (length (PORT :: more)) with (S (length more)).
    rewrite Nat2Z.inj_succ.
    replace (Z.succ (Z.of_nat (length more)) =? 0) with false
      by (symmetry; apply Z.eqb_neq; lia).
    discriminate.
  - apply start_loop_raises in Hst. intros H. inversion H; subst.
    destruct Hst; discriminate.
Qed.

(** The three count checks, and nothing else, are made before the
    servers are started: with positive counts the script goes on to
    [Server.start] whatever the port is. *)
Lemma main_positive_counts free CLIENT_NUM SERVER_NUM THREAD_NUM PORT h :
  0 < CLIENT_NUM -> 0 < SERVER_NUM -> 0 < THREAD_NUM ->
  Main.main free CLIENT_NUM SERVER_NUM THREAD_NUM PORT h =
  match Server.start free (Server.init THREAD_NUM SERVER_NUM) PORT h with
  | None => None
  | Some (Raised e, _, h') => Some (Raised e, h')
  | Some (Returned s_ports, s', h') =>
      if negb (Z.of_nat (length s_ports) =? 0)
      then Some (Returned (s', s_ports), h')
      else Some (Raised (EbgException Ebg.NO_PORT_TO_USE), h')
  end.
Proof.
  intros HC HS HT. unfold Main.main.
  replace (CLIENT_NUM <=? 0) with false by (symmetry; apply Z.leb_gt; lia).
  replace (SERVER_NUM <=? 0) with false by (symmetry; apply Z.leb_gt; lia).
  replace (THREAD_NUM <=? 0) with false by (symmetry; apply Z.leb_gt; lia).
  reflexivity.
Qed.

(** ** The claims about the server pool *)

(** C1 (the code departs from it).  The claim: when a bind fails,
    [Server.start] goes on to the next port and returns normally.  The
    code: with port 8000 taken and one server wanted, the only bind
    attempt is the one on 8000 and its [OSError] leaves [start]; no later
    port is tried and nothing is returned.  So it is in every iteration:
    a bind that fails ends the loop with its exception. *)
Theorem start_propagates_bind_error :
  (Sys.sock_bind (Sys.free_except 8000) 8001 = Returned tt /\
   Server.start (Sys.free_except 8000) (Server.init 1 1) 8000 Sys.fresh_host =
   Some (Raised OSError, Server.init 1 1, Sys.mkHost [8000] [])) /\
  (forall free fuel self c q acc h e,
     c < Server.s_n self ->
     Sys.sock_bind free q = Raised e ->
     Server.start_loop free (S fuel) self c q acc h =
     Some (Raised e, self, Sys.mkHost (Sys.bind_log h ++ [q]) (Sys.listening h))).
Proof.
  split; [split; reflexivity|].
  intros free fuel self c q acc h e Hc He.
  apply start_loop_first_bind_fails; [|exact He].
  apply orb_true_iff. left. apply Z.ltb_lt. exact Hc.
Qed.

(** C2 (the code departs from it).  The claim: from port 65535 with one
    server wanted there is exactly one bind attempt and the loop stops.
    The code: with 65535 free the counter reaches 1, yet [s_port >= 65535]
    keeps the loop going; a second bind is attempted on 65536 and its
    [OverflowError] leaves [start].  Whatever the counter, a loop that
    has come to port 65535 or beyond ends by an exception only. *)
Theorem start_at_boundary_port_binds_twice :
  Server.start Sys.all_free (Server.init 1 1) 65535 Sys.fresh_host =
  Some (Raised OverflowError,
        Server.mk 1 1 [server_thread.mk 65535 1 true],
        Sys.mkHost [65535; 65536] [65535]) /\
  (forall free fuel self c q acc h r s' h',
     65535 <= q ->
     Server.start_loop free fuel self c q acc h = Some (r, s', h') ->
     exists e, r = Raised e).
Proof.
  split; [reflexivity|].
  intros free fuel self c q acc h r s' h'. apply start_loop_high_port.
Qed.

(** C3 (the code departs from it).  The claim: when every bind from [p]
    on succeeds and [p + N - 1 < 65535], [start] returns the [N] ports
    from [p].  The code: for [p = 65534] and [N = 1] the bound holds and
    the ports 65534 and 65535 are free, but after the first bind
    [s_port] is 65535, the loop goes on, binds 65535 as well, and ends in
    the [OverflowError] of the bind on 65536. *)
Theorem start_below_boundary_overruns :
  65534 + 1 - 1 < 65535 /\
  (forall q, 65534 <= q <= 65535 -> Sys.sock_bind Sys.all_free q = Returned tt) /\
  Server.start Sys.all_free (Server.init 1 1) 65534 Sys.fresh_host =
  Some (Raised OverflowError,
        Server.mk 1 1 [server_thread.mk 65534 1 true; server_thread.mk 65535 1 true],
        Sys.mkHost [65534; 65535; 65536] [65534; 65535]).
Proof.
  split; [lia|]. split; [|reflexivity].
  intros q Hq. apply sock_bind_free; [lia | reflexivity].
Qed.

Lemma sock_listen_int (backlog : Z) :
  Sys.sock_listen backlog = Returned tt <->
  -2147483648 <= backlog <= 2147483647.
Proof.
  unfold Sys.sock_listen.
  destruct (Z.leb_spec (-2147483648) backlog) as [Hlo|Hlo];
    destruct (Z.leb_spec backlog 2147483647) as [Hhi|Hhi]; simpl;
    (split; [intros H; first [discriminate H | lia]
            | intros H; first [reflexivity | lia]]).
Qed.

(** Away from the boundary the pool is what the design asks for: when
    the [N] ports from [p] are free, [p + N < 65535] and the thread count
    is a backlog the system takes, [start] returns exactly
    [p, p+1, ..., p+N-1] after exactly [N] bind attempts. *)
Theorem start_returns_free_run free threads N p :
  1 <= N -> 0 <= p -> p + N < 65535 ->
  (forall x, p <= x < p + N -> free x = true) ->
  -2147483648 <= threads <= 2147483647 ->
  exists s',
    Server.start free (Server.init threads N) p Sys.fresh_host =
    Some (Returned (zrange p (Z.to_nat N)), s',
          Sys.mkHost (zrange p (Z.to_nat N))
            (named_ports (zrange p (Z.to_nat N))))
    /\ map server_thread.port (Server.s_list s') = zrange p (Z.to_nat N).
Proof.
  intros HN Hp Hhi Hfree Hthreads.
  destruct (start_loop_free_run free (Z.to_nat N) (Server.start_fuel p)
              (Server.init threads N) 0 p [] Sys.fresh_host)
    as (s' & h' & Hrun & Hlog & Hlis & Hsl).
  - unfold Server.start_fuel. lia.
  - simpl. lia.
  - exact Hp.
  - lia.
  - intros x Hx. apply Hfree. lia.
  - apply sock_listen_int. exact Hthreads.
  - exists s'. unfold Server.start. rewrite Hrun. simpl in *.
    destruct h' as [bl li]. simpl in *. subst. auto.
Qed.

Lemma start_returns_free_run_witness :
  exists s',
    Server.start Sys.all_free (Server.init 4 2) 50000 Sys.fresh_host =
    Some (Returned [50000; 50001], s', Sys.mkHost [50000; 50001] [50000; 50001])
    /\ map server_thread.port (Server.s_list s') = [50000; 50001].
Proof.
  apply (start_returns_free_run Sys.all_free 4 2 50000); try lia.
  intros; reflexivity.
Defined.

(** C9.  With at least one server wanted, [start] always ends, and never
    by returning an empty list: its first iteration either raises the
    error of the bind on the base port, which leaves [start] with nothing
    appended, or records the base port as first element of the result.
    So the script's branch for an empty list is never taken. *)
Theorem start_never_returns_empty free self p h :
  1 <= Server.s_n self ->
  (exists out, Server.start free self p h = Some out) /\
  (forall s' h', Server.start free self p h <> Some (Returned [], s', h')) /\
  (forall e, Sys.sock_bind free p = Raised e ->
     Server.start free self p h =
     Some (Raised e, self, Sys.mkHost (Sys.bind_log h ++ [p]) (Sys.listening h))) /\
  (forall ports s' h', Server.start free self p h = Some (Returned ports, s', h') ->
     Sys.sock_bind free p = Returned tt /\ exists more, ports = p :: more) /\
  (forall C T h',
     Main.main free C (Server.s_n self) T p h <>
     Some (Raised (EbgException Ebg.NO_PORT_TO_USE), h')).
Proof.
  intros HN.
  assert (Hc : (0 <? Server.s_n self) || (65535 <=? p) = true)
    by (apply orb_true_iff; left; apply Z.ltb_lt; lia).
  repeat split.
  - apply start_total.
  - intros s' h' H. apply start_nonempty in H; [|exact HN].
    destruct H as [more H]. discriminate.
  - intros e He. apply start_loop_first_bind_fails; assumption.
  - eapply start_loop_entered in H; [|exact Hc]. apply H.
  - apply start_nonempty in H; assumption.
  - intros C T h'. apply main_never_no_port.
Qed.

Lemma start_never_returns_empty_witness :
  1 <= Server.s_n (Server.init 1 1) /\
  exists out,
    Server.start (Sys.free_except 8000) (Server.init 1 1) 8000 Sys.fresh_host =
    Some out.
Proof.
  assert (HN : 1 <= Server.s_n (Server.init 1 1)) by (simpl; lia).
  split; [exact HN|].
  exact (proj1 (start_never_returns_empty (Sys.free_except 8000)
                  (Server.init 1 1) 8000 Sys.fresh_host HN)).
Defined.

(** ** The claims about the script *)

(** C7 (the code departs from it).  The claim: port exhaustion, raised
    as [NO_PORT_TO_USE], is the only error the program surfaces.  The
    code: with port 8000 taken, the script ends in the raw [OSError] of
    the bind, raised out of [Server.start]; and by [main_never_no_port]
    it never raises [NO_PORT_TO_USE] at all. *)
Theorem main_surfaces_bind_error :
  Main.main (Sys.free_except 8000) 1 1 1 8000 Sys.fresh_host =
  Some (Raised OSError, Sys.mkHost [8000] []) /\
  Raised (A := Server.t * list Z) OSError <>
  Raised (EbgException Ebg.NO_PORT_TO_USE).
Proof. split; [reflexivity | discriminate]. Qed.

(** C8, as claimed, fails for the port: the script started with port 0
    and positive counts raises no validation error; it goes on to bind
    port 0. *)
Lemma main_accepts_nonpositive_port :
  0 <= 0 /\
  Main.main Sys.all_free 1 1 1 0 Sys.fresh_host =
    Some (Returned (Server.mk 1 1 [server_thread.mk 0 1 true], [0]),
          Sys.mkHost [0] []) /\
  ~ (exists code h',
       Main.main Sys.all_free 1 1 1 0 Sys.fresh_host =
       Some (Raised (EbgException code), h')).
Proof.
  split; [lia|]. split; [reflexivity|].
  intros (code & h' & H). discriminate H.
Qed.

(** C8, amended.  A non-positive client count, server count or thread
    count is rejected with the matching [EbgException] before anything
    is bound (the host is untouched); the port takes no part in it. *)
Theorem main_rejects_nonpositive_counts free CLIENT_NUM SERVER_NUM THREAD_NUM PORT h :
  CLIENT_NUM <= 0 \/ SERVER_NUM <= 0 \/ THREAD_NUM <= 0 ->
  exists code,
    Main.main free CLIENT_NUM SERVER_NUM THREAD_NUM PORT h =
      Some (Raised (EbgException code), h) /\
    (code = Ebg.CLIENT_NUM_ERROR /\ CLIENT_NUM <= 0 \/
     code = Ebg.SERVER_NUM_ERROR /\ SERVER_NUM <= 0 \/
     code = Ebg.THREAD_NUM_ERROR /\ THREAD_NUM <= 0).
Proof.
  intros H. unfold Main.main.
  destruct (CLIENT_NUM <=? 0) eqn:HC.
  { apply Z.leb_le in HC. eauto 6. }
  destruct (SERVER_NUM <=? 0) eqn:HS.
  { apply Z.leb_le in HS. eauto 7. }
  destruct (THREAD_NUM <=? 0) eqn:HT.
  { apply Z.leb_le in HT. eauto 8. }
  apply Z.leb_gt in HC, HS, HT. lia.
Qed.

Lemma main_rejects_nonpositive_counts_witness :
  exists code,
    Main.main Sys.all_free 5 0 1 50000 Sys.fresh_host =
      Some (Raised (EbgException code), Sys.fresh_host) /\
    (code = Ebg.CLIENT_NUM_ERROR /\ 5 <= 0 \/
     code = Ebg.SERVER_NUM_ERROR /\ 0 <= 0 \/
     code = Ebg.THREAD_NUM_ERROR /\ 1 <= 0).
Proof.
  apply (main_rejects_nonpositive_counts Sys.all_free 5 0 1 50000 Sys.fresh_host).
  right. left. lia.
Defined.

(** ** client_thread.connect *)

(** What one call of [connect] does when the system has a socket for it
    and the port can be addressed. *)
Lemma connect_in_range self a n :
  Sys.socket_ok a = true ->
  port_in_range (snd (client_thread.addr self)) = true ->
  client_thread.connect self a n =
  (Returned (Sys.succeeds a),
   Sys.mkNet (S (Sys.next_fd n))
     (remove Nat.eq_dec (Sys.next_fd n) (Sys.open_fds n ++ [Sys.next_fd n]))
     (Sys.delivered n ++
        if Sys.succeeds a then [(snd (client_thread.addr self), TEST_MSG)] else [])).
Proof.
  intros Hs Hr.
  unfold client_thread.connect, client_thread.connect_try, Sys.sock_create,
    Sys.sock_connect, Sys.sock_send, Sys.succeeds, Sys.sock_close.
  rewrite Hs, Hr.
  destruct (Sys.connect_ok a), (Sys.send_ok a); simpl; try rewrite app_nil_r;
    reflexivity.
Qed.

(** Without a socket the call is over before its [try]. *)
Lemma connect_no_socket self a n :
  Sys.socket_ok a = false ->
  client_thread.connect self a n = (Raised OSError, n).
Proof.
  intros Hs. unfold client_thread.connect, Sys.sock_create. now rewrite Hs.
Qed.

(** The socket of a call is the only one it touches. *)
Lemma connect_open_fds self a n :
  net_wf n ->
  Sys.open_fds (snd (client_thread.connect self a n)) = Sys.open_fds n /\
  net_wf (snd (client_thread.connect self a n)).
Proof.
  intros Hwf.
  destruct (Sys.socket_ok a) eqn:Hs;
    [|rewrite connect_no_socket by exact Hs; split; [reflexivity | exact Hwf]].
  assert (Ho : Sys.open_fds (snd (client_thread.connect self a n)) = Sys.open_fds n).
  { unfold client_thread.connect, client_thread.connect_try, Sys.sock_create,
      Sys.sock_connect, Sys.sock_send, Sys.sock_close. rewrite Hs.
    destruct (port_in_range _), (Sys.connect_ok a), (Sys.send_ok a); simpl;
      rewrite remove_app; simpl;
      (destruct (Nat.eq_dec (Sys.next_fd n) (Sys.next_fd n)); [|congruence]);
      rewrite app_nil_r; apply notin_remove;
      intros Hin; apply Hwf in Hin; lia. }
  split; [exact Ho|].
  intros s Hin. rewrite Ho in Hin. apply Hwf in Hin.
  unfold client_thread.connect, client_thread.connect_try, Sys.sock_create,
    Sys.sock_connect, Sys.sock_send, Sys.sock_close. rewrite Hs.
  destruct (port_in_range _), (Sys.connect_ok a), (Sys.send_ok a); simpl; lia.
Qed.

(** Every way a call of [connect] can go.  It returns [True] exactly
    when it got a socket and the connect and the send both succeeded, and
    [False] exactly when it got a socket and one of the two failed with a
    socket error.  An exception leaves it in two cases: the socket could
    not be created, and then it is the socket error of that call; or the
    connect raised what is no socket error.  Whenever a socket was
    opened it is closed when the call ends. *)
Lemma connect_contract (self : client_thread.t) (a : Sys.attempt) (n : Sys.Net) :
  let port := snd (client_thread.addr self) in
  let c := Sys.sock_connect port (Sys.connect_ok a) in
  let r := fst (client_thread.connect self a n) in
  let n' := snd (client_thread.connect self a n) in
  (r = Returned true <->
     Sys.socket_ok a = true /\ c = Returned tt /\ Sys.send_ok a = true) /\
  (r = Returned false <->
     Sys.socket_ok a = true /\
     (c = Raised OSError \/ c = Returned tt /\ Sys.send_ok a = false)) /\
  (forall e, r = Raised e ->
     Sys.socket_ok a = false /\ e = OSError /\ n' = n \/
     Sys.socket_ok a = true /\ is_socket_error e = false /\ c = Raised e) /\
  (Sys.socket_ok a = true ->
     Sys.next_fd n' = S (Sys.next_fd n) /\
     ~ In (Sys.next_fd n) (Sys.open_fds n')) /\
  (r = Returned true ->
     Sys.delivered n' = Sys.delivered n ++ [(port, TEST_MSG)]) /\
  (r <> Returned true -> Sys.delivered n' = Sys.delivered n).
Proof.
  unfold client_thread.connect, client_thread.connect_try, Sys.sock_create,
    Sys.sock_connect, Sys.sock_send, Sys.sock_close.
  destruct (Sys.socket_ok a), (port_in_range _), (Sys.connect_ok a),
    (Sys.send_ok a); simpl;
    repeat split; intros; auto; try apply remove_In; try congruence;
    try (intuition congruence).
  all: match goal with H : Raised _ = Raised _ |- _ => inversion H end;
    auto.
Qed.

(** C4 (the code departs from it).  The claim, like the docstring of
    [connect] ("True if no error occurres otherwise False"): a socket
    error makes [connect] return [False].  The code: the socket is
    created before the [try]; when the system has no socket to give,
    [socket.socket()] raises a socket error and that error leaves
    [connect], for every target. *)
Theorem connect_propagates_socket_error :
  (is_socket_error OSError = true /\
   client_thread.connect (client_thread.init 50000)
     (Sys.mkAttempt false true true) Sys.fresh_net =
   (Raised OSError, Sys.fresh_net)) /\
  (forall self a n,
     Sys.socket_ok a = false ->
     client_thread.connect self a n = (Raised OSError, n)).
Proof.
  split; [split; reflexivity|].
  intros self a n. apply connect_no_socket.
Qed.

(** ** client_thread.run and Client.join *)

Section Driver.

Variable self : client_thread.t.
Variable peer : nat -> Sys.attempt.
Hypothesis in_range : port_in_range (snd (client_thread.addr self)) = true.
Hypothesis created : sockets_created peer.

Let port := snd (client_thread.addr self).

(** The driver goes through failed attempts without sending anything. *)
Lemma run_skips_failure fuel k n :
  Sys.succeeds (peer k) = false ->
  client_thread.run (S fuel) self peer k n =
  client_thread.run fuel self peer (S k)
    (Sys.mkNet (S (Sys.next_fd n))
       (remove Nat.eq_dec (Sys.next_fd n) (Sys.open_fds n ++ [Sys.next_fd n]))
       (Sys.delivered n)).
Proof.
  intros Hf. simpl. rewrite connect_in_range by (try apply created; exact in_range).
  rewrite Hf. now rewrite app_nil_r.
Qed.

(** It ends with the attempt that succeeds, having sent once. *)
Lemma run_ends_on_success fuel k n :
  Sys.succeeds (peer k) = true ->
  client_thread.run (S fuel) self peer k n =
  Some (Returned tt,
        Sys.mkNet (S (Sys.next_fd n))
          (remove Nat.eq_dec (Sys.next_fd n) (Sys.open_fds n ++ [Sys.next_fd n]))
          (Sys.delivered n ++ [(port, TEST_MSG)])).
Proof.
  intros Hs. simpl. rewrite connect_in_range by (try apply created; exact in_range).
  now rewrite Hs.
Qed.

Lemma remove_fresh_fd (n : Sys.Net) :
  net_wf n ->
  remove Nat.eq_dec (Sys.next_fd n) (Sys.open_fds n ++ [Sys.next_fd n]) =
  Sys.open_fds n.
Proof.
  intros Hwf. rewrite remove_app. simpl.
  destruct (Nat.eq_dec (Sys.next_fd n) (Sys.next_fd n)); [|congruence].
  rewrite app_nil_r. apply notin_remove.
  intros Hin. apply Hwf in Hin. lia.
Qed.

(** With enough fuel the driver ends at the first success after [k]. *)
Lemma run_reaches_first_success k0 : forall fuel k n,
  net_wf n ->
  (k0 < fuel)%nat ->
  Sys.succeeds (peer (k + k0)) = true ->
  (forall j, (j < k0)%nat -> Sys.succeeds (peer (k + j)) = false) ->
  client_thread.run fuel self peer k n =
  Some (Returned tt,
        Sys.mkNet (Sys.next_fd n + S k0) (Sys.open_fds n)
          (Sys.delivered n ++ [(port, TEST_MSG)])).
Proof.
  induction k0 as [|k0 IH]; intros fuel k n Hwf Hfuel Hs Hf;
    (destruct fuel as [|fuel]; [lia|]).
  - rewrite Nat.add_0_r in Hs. rewrite run_ends_on_success by exact Hs.
    rewrite remove_fresh_fd by exact Hwf.
    now rewrite Nat.add_1_r.
  - rewrite run_skips_failure
      by (specialize (Hf 0%nat); rewrite Nat.add_0_r in Hf; apply Hf; lia).
    rewrite remove_fresh_fd by exact Hwf.
    rewrite IH.
    + simpl. do 3 f_equal. lia.
    + intros s Hin. simpl in *. apply Hwf in Hin. lia.
    + lia.
    + now rewrite Nat.add_succ_comm.
    + intros j Hj. rewrite Nat.add_succ_comm. apply Hf. lia.
Qed.

(** If the driver ends at all, a first success exists within the fuel. *)
Lemma run_ended fuel : forall k n out,
  client_thread.run fuel self peer k n = Some out ->
  exists k0, (k0 < fuel)%nat /\
    Sys.succeeds (peer (k + k0)) = true /\
    (forall j, (j < k0)%nat -> Sys.succeeds (peer (k + j)) = false).
Proof.
  induction fuel as [|fuel IH]; intros k n out H; [discriminate|].
  destruct (Sys.succeeds (peer k)) eqn:Hs.
  - exists 0%nat. rewrite Nat.add_0_r. repeat split; [lia | exact Hs | lia].
  - rewrite run_skips_failure in H by exact Hs.
    apply IH in H. destruct H as (k0 & Hlt & Hk0 & Hbefore).
    exists (S k0). rewrite <- Nat.add_succ_comm. repeat split; [lia | exact Hk0 |].
    intros [|j] Hj.
    + now rewrite Nat.add_0_r.
    + rewrite <- Nat.add_succ_comm. apply Hbefore. lia.
Qed.

(** Without a success the driver is still looping when the fuel is gone. *)
Lemma run_keeps_retrying fuel : forall k n,
  (forall j, (j < fuel)%nat -> Sys.succeeds (peer (k + j)) = false) ->
  client_thread.run fuel self peer k n = None.
Proof.
  induction fuel as [|fuel IH]; intros k n Hf; [reflexivity|].
  rewrite run_skips_failure
    by (specialize (Hf 0%nat); rewrite Nat.add_0_r in Hf; apply Hf; lia).
  apply IH. intros j Hj. rewrite Nat.add_succ_comm. apply Hf. lia.
Qed.

Lemma fresh_net_wf : net_wf Sys.fresh_net.
Proof. intros s []. Qed.

(** A driver started on a fresh network ends exactly when a first
    success lies within the fuel, and then in the state [ended_after]. *)
Lemma run_iff fuel out :
  client_thread.run fuel self peer 0%nat Sys.fresh_net = Some out <->
  exists k0, (k0 < fuel)%nat /\ first_success peer k0 /\ ended_after self k0 out.
Proof.
  split.
  - intros H. destruct (run_ended _ _ _ _ H) as (k0 & Hlt & Hs & Hf).
    exists k0. split; [exact Hlt|]. split; [split; assumption|].
    rewrite (run_reaches_first_success k0 fuel 0%nat Sys.fresh_net
               fresh_net_wf Hlt Hs Hf) in H.
    inversion H. reflexivity.
  - intros (k0 & Hlt & [Hs Hf] & ->).
    now rewrite (run_reaches_first_success k0 fuel 0%nat Sys.fresh_net
                   fresh_net_wf Hlt Hs Hf).
Qed.

End Driver.

Section Burst.

Variable peers : nat -> nat -> Sys.attempt.
Hypothesis created_all : forall i, sockets_created (peers i).

(** [join] returns only when every driver has ended, each after its
    first success and with one payload sent. *)
Lemma join_loop_returned fuel : forall c_list i outs,
  Forall driver_in_range c_list ->
  Client.join_loop fuel c_list i peers = Some outs ->
  length outs = length c_list /\
  sends outs = length c_list /\
  forall j d, nth_error c_list j = Some d ->
    exists k0 out, nth_error outs j = Some out /\ (k0 < fuel)%nat /\
      first_success (peers (i + j)%nat) k0 /\ ended_after d k0 out.
Proof.
  induction c_list as [|c rest IH]; intros i outs Hr H.
  - inversion H; subst. repeat split; try reflexivity.
    intros [|j] d Hd; discriminate.
  - simpl in H. inversion Hr as [|? ? Hc Hrest]; subst.
    destruct (client_thread.run fuel c (peers i) 0%nat Sys.fresh_net)
      as [out|] eqn:Hrun; [|discriminate].
    destruct (Client.join_loop fuel rest (S i) peers) as [outs'|] eqn:Hj;
      [|discriminate].
    inversion H; subst. clear H.
    destruct (IH _ _ Hrest Hj) as (Hlen & Hsends & Hnth).
    apply (run_iff c (peers i) Hc (created_all i)) in Hrun.
    destruct Hrun as (k0 & Hlt & Hfirst & Hend).
    repeat split.
    + simpl. now rewrite Hlen.
    + unfold sends in *. simpl. rewrite Hsends. now rewrite Hend.
    + intros [|j] d Hd; simpl in Hd.
      * inversion Hd; subst. exists k0, out. rewrite Nat.add_0_r. auto.
      * destruct (Hnth j d Hd) as (k1 & out1 & ? & ? & ? & ?).
        exists k1, out1. rewrite <- Nat.add_succ_comm. auto.
Qed.

(** [join] does return once every driver has a success within the fuel. *)
Lemma join_loop_returns fuel : forall c_list i,
  Forall driver_in_range c_list ->
  (forall j d, nth_error c_list j = Some d ->
     exists k0, (k0 < fuel)%nat /\ first_success (peers (i + j)%nat) k0) ->
  exists outs, Client.join_loop fuel c_list i peers = Some outs.
Proof.
  induction c_list as [|c rest IH]; intros i Hr Hall.
  - now exists [].
  - inversion Hr as [|? ? Hc Hrest]; subst. simpl.
    destruct (Hall 0%nat c eq_refl) as (k0 & Hlt & Hfirst).
    rewrite Nat.add_0_r in Hfirst.
    assert (Hrun : client_thread.run fuel c (peers i) 0%nat Sys.fresh_net =
                   Some (Returned tt,
                         Sys.mkNet (S k0) [] [(snd (client_thread.addr c), TEST_MSG)])).
    { apply (run_iff c (peers i) Hc (created_all i)). exists k0.
      split; [exact Hlt|]. split; [exact Hfirst | reflexivity]. }
    rewrite Hrun.
    destruct (IH (S i) Hrest) as [outs Houts].
    + intros j d Hd. destruct (Hall (S j) d Hd) as (k1 & ? & ?).
      exists k1. rewrite Nat.add_succ_comm. auto.
    + rewrite Houts. eauto.
Qed.

(** [join] is still waiting while one driver has had no success. *)
Lemma join_loop_waits fuel : forall c_list i j d,
  Forall driver_in_range c_list ->
  nth_error c_list j = Some d ->
  (forall k, (k < fuel)%nat -> Sys.succeeds (peers (i + j)%nat k) = false) ->
  Client.join_loop fuel c_list i peers = None.
Proof.
  induction c_list as [|c rest IH]; intros i j d Hr Hd Hfail.
  - destruct j; discriminate.
  - inversion Hr as [|? ? Hc Hrest]; subst. simpl.
    destruct j as [|j]; simpl in Hd.
    + inversion Hd; subst. rewrite Nat.add_0_r in Hfail.
      rewrite (run_keeps_retrying d (peers i) Hc (created_all i)); [reflexivity|].
      intros k Hk. apply Hfail. exact Hk.
    + rewrite (IH (S i) j d Hrest Hd).
      * now destruct (client_thread.run fuel c (peers i) 0%nat Sys.fresh_net).
      * intros k Hk. rewrite Nat.add_succ_comm. now apply Hfail.
Qed.

End Burst.

(** ** Client.start *)

Lemma zrange_length a n : length (zrange a n) = n.
Proof. revert a. induction n; intros a; simpl; congruence. Qed.

Lemma zrange_In n : forall a x, In x (zrange a n) <-> a <= x < a + Z.of_nat n.
Proof.
  induction n as [|n IH]; intros a x.
  - simpl. lia.
  - cbn [zrange In]. rewrite IH. lia.
Qed.

Lemma zrange_NoDup n : forall a, NoDup (zrange a n).
Proof.
  induction n as [|n IH]; intros a; simpl; constructor.
  - rewrite zrange_In. lia.
  - apply IH.
Qed.

Lemma flat_map_congr {A B : Type} (f g : A -> list B) (l : list A) :
  (forall a, In a l -> f a = g a) -> flat_map f l = flat_map g l.
Proof.
  induction l as [|a l IH]; intros H; simpl; [reflexivity|].
  rewrite H by (now left). rewrite IH; [reflexivity|].
  intros b Hb. apply H. now right.
Qed.

Lemma map_flat_map {A B C : Type} (h : B -> C) (f : A -> list B) (l : list A) :
  map h (flat_map f l) = flat_map (fun a => map h (f a)) l.
Proof.
  induction l as [|a l IH]; simpl; [reflexivity|].
  now rewrite map_app, IH.
Qed.

Lemma vectors_In choices c : forall v,
  In v (Rand.vectors choices c) <->
  length v = c /\ Forall (fun i => In i choices) v.
Proof.
  induction c as [|c IH]; intros v; simpl.
  - split.
    + intros [<-|[]]. split; [reflexivity | constructor].
    + intros [Hl _]. left. symmetry. now apply length_zero_iff_nil.
  - rewrite in_flat_map. split.
    + intros (i & Hi & Hv). apply in_map_iff in Hv.
      destruct Hv as (w & <- & Hw). apply IH in Hw. destruct Hw as [Hl Hf].
      split; [simpl; congruence | now constructor].
    + intros [Hl Hf]. destruct v as [|i w]; [discriminate|].
      inversion Hf; subst. exists i. split; [assumption|].
      apply in_map. apply IH. split; [now inversion Hl | assumption].
Qed.

Lemma vectors_length choices c :
  length (Rand.vectors choices c) = (length choices ^ c)%nat.
Proof.
  induction c as [|c IH]; [reflexivity|].
  cbn [Rand.vectors Nat.pow]. rewrite <- IH.
  generalize (Rand.vectors choices c) as V. clear IH. intros V.
  induction choices as [|i ch IHch]; simpl; [reflexivity|].
  now rewrite length_app, length_map, IHch.
Qed.

Lemma NoDup_map_cons (i : Z) (V : list (list Z)) :
  NoDup V -> NoDup (map (cons i) V).
Proof.
  induction 1 as [|v V Hv HV IH]; simpl; constructor; [|exact IH].
  intros Hin. apply in_map_iff in Hin. destruct Hin as (w & Heq & Hw).
  inversion Heq; subst. contradiction.
Qed.

Lemma vectors_NoDup choices c :
  NoDup choices -> NoDup (Rand.vectors choices c).
Proof.
  intros Hnd. induction c as [|c IH]; simpl.
  - constructor; [intros [] | constructor].
  - generalize dependent (Rand.vectors choices c). intros V HV.
    induction Hnd as [|i ch Hi Hnd IHch]; simpl; [constructor|].
    apply NoDup_app.
    + apply NoDup_map_cons. exact HV.
    + exact IHch.
    + intros v Hv Hv'. apply in_map_iff in Hv. destruct Hv as (w & <- & _).
      apply in_flat_map in Hv'. destruct Hv' as (j & Hj & Hw).
      apply in_map_iff in Hw. destruct Hw as (w' & Heq & _).
      inversion Heq; subst. contradiction.
Qed.

Lemma randint_indices (m : nat) :
  m <> 0%nat ->
  Rand.randint 0 (Z.of_nat m - 1) = Returned (zrange 0 m).
Proof.
  intros Hm. unfold Rand.randint.
  replace (Z.of_nat m - 1 <? 0) with false by (symmetry; apply Z.ltb_ge; lia).
  do 2 f_equal. lia.
Qed.

Lemma getitem_index (l : list Z) (i : Z) :
  0 <= i < Z.of_nat (length l) ->
  getitem l i = Returned (nth (Z.to_nat i) l 0).
Proof.
  intros Hi. unfold getitem.
  replace (i <? 0) with false by (symmetry; apply Z.ltb_ge; lia).
  replace (0 <=? i) with true by (symmetry; apply Z.leb_le; lia).
  replace (i <? Z.of_nat (length l)) with true by (symmetry; apply Z.ltb_lt; lia).
  reflexivity.
Qed.

(** With targets to choose from and a [c_list] to append to, the loop of
    [start] has one run for each vector of indices, all of the same
    probability, and none raises. *)
Lemma start_loop_runs iters : forall self l draws odds,
  Client.s_ports self <> [] ->
  Client.c_list self = Some l ->
  Client.start_loop iters (Z.of_nat (length (Client.s_ports self))) self draws odds =
  map (fun v =>
         Rand.mkRun (draws ++ v)
           (odds * Z.of_nat (length (Client.s_ports self)) ^ Z.of_nat iters)
           (Returned tt,
            Client.mk (Client.s_ports self) (Client.c_n self)
              (Some (l ++ launched (Client.s_ports self) v))))
      (Rand.vectors (zrange 0 (length (Client.s_ports self))) iters).
Proof.
  induction iters as [|iters IH]; intros self l draws odds Hne Hl.
  - simpl. rewrite !app_nil_r, Z.mul_1_r. destruct self; simpl in *. now subst.
  - cbn [Client.start_loop Rand.vectors].
    rewrite randint_indices by (destruct (Client.s_ports self); [congruence | discriminate]).
    rewrite map_flat_map. apply flat_map_congr. intros i Hi.
    apply zrange_In in Hi.
    rewrite getitem_index by lia. rewrite Hl.
    match goal with
    | |- context [Client.start_loop iters _ ?s ?d ?o] =>
        pose proof (IH s _ d o Hne eq_refl) as IHi
    end.
    cbn [Client.s_ports Client.c_n Client.c_list] in IHi. rewrite IHi.
    rewrite map_map. apply map_ext. intros v.
    rewrite zrange_length, Nat2Z.inj_succ, Z.pow_succ_r by lia.
    unfold launched, client_thread.start, client_thread.init.
    cbn [map client_thread.addr]. rewrite <- !app_assoc. cbn [app].
    f_equal. lia.
Qed.

Lemma start_runs s_ports c_n :
  s_ports <> [] ->
  Client.start (Client.init s_ports c_n) =
  map (fun v =>
         Rand.mkRun v (Z.of_nat (length s_ports) ^ Z.of_nat (Z.to_nat c_n))
           (Returned tt, Client.mk s_ports c_n (Some (launched s_ports v))))
      (Rand.vectors (zrange 0 (length s_ports)) (Z.to_nat c_n)).
Proof.
  intros Hne. unfold Client.start.
  rewrite (start_loop_runs _ (Client.init s_ports c_n) []) by (exact Hne || reflexivity).
  apply map_ext. intros v. cbn. f_equal.
  destruct (Z.of_nat (length s_ports) ^ Z.of_nat (Z.to_nat c_n)); reflexivity.
Qed.

Lemma launched_in_range s_ports v :
  Forall (fun p => port_in_range p = true) s_ports ->
  Forall (fun i => In i (zrange 0 (length s_ports))) v ->
  Forall driver_in_range (launched s_ports v).
Proof.
  intros Hp Hv. unfold launched. apply Forall_map.
  eapply Forall_impl; [|exact Hv].
  intros i Hi. apply zrange_In in Hi. unfold driver_in_range. simpl.
  rewrite Forall_forall in Hp. apply Hp. apply nth_In. lia.
Qed.

(** Every port [Server.start] returns was bound, so it is a port a
    client can address. *)
Lemma start_loop_ports_in_range free fuel : forall self c q acc h ports s' h',
  Forall (fun p => port_in_range p = true) acc ->
  Server.start_loop free fuel self c q acc h = Some (Returned ports, s', h') ->
  Forall (fun p => port_in_range p = true) ports.
Proof.
  induction fuel as [|fuel IH]; intros self c q acc h ports s' h' Hacc H.
  - simpl in H. destruct ((c <? Server.s_n self) || (65535 <=? q)); [discriminate|].
    now inversion H; subst.
  - destruct ((c <? Server.s_n self) || (65535 <=? q)) eqn:Hc.
    + rewrite start_loop_step in H by exact Hc.
      unfold server_thread.init, Sys.sock_bind in H.
      destruct (port_in_range q) eqn:Hq; [destruct (free q)|]; try discriminate.
      destruct (Sys.sock_listen (Server.threads self)) as [[]|e]; [|discriminate].
      eapply IH; [|exact H].
      apply Forall_app. split; [exact Hacc | now constructor].
    + rewrite start_loop_exit in H by exact Hc. now inversion H; subst.
Qed.

Lemma start_ports_in_range free self p h ports s' h' :
  Server.start free self p h = Some (Returned ports, s', h') ->
  Forall (fun x => port_in_range x = true) ports.
Proof. apply start_loop_ports_in_range. constructor. Qed.

(** ** The claims about the client burst *)




(** C6.  With a non-empty target list and [c_n >= 1], every run of
    [Client.start] returns normally and leaves in [c_list] exactly [c_n]
    threads, one for each value [randint] returned, in that order: the
    thread for the index [i] has been started and its address is
    localhost with the port [s_ports[i]], a port of the target list.
    Each of these indices lies in [0, len - 1], and every run has the
    probability one in [len ^ c_n].  Conversely each vector of [c_n]
    indices of that range is chosen by a run, by one only, and the runs
    number [len ^ c_n]: the indices are uniform and independent, with
    replacement. *)
Theorem start_chooses_targets_uniformly (s_ports : list Z) (c_n : Z) :
  s_ports <> [] -> 1 <= c_n ->
  let n := Z.of_nat (length s_ports) in
  let runs := Client.start (Client.init s_ports c_n) in
  (forall r, In r runs ->
     Forall (fun i => 0 <= i <= n - 1) (Rand.draws r) /\
     Rand.odds r = n ^ c_n /\
     exists l,
       Rand.outcome r = (Returned tt, Client.mk s_ports c_n (Some l)) /\
       Z.of_nat (length l) = c_n /\
       l = map (fun i =>
                  client_thread.mk
                    ("localhost"%string, nth (Z.to_nat i) s_ports 0) true)
               (Rand.draws r) /\
       Forall (fun d => client_thread.started d = true /\
                        fst (client_thread.addr d) = "localhost"%string /\
                        In (snd (client_thread.addr d)) s_ports) l) /\
  (forall v, Z.of_nat (length v) = c_n ->
     Forall (fun i => 0 <= i <= n - 1) v ->
     exists r, In r runs /\ Rand.draws r = v) /\
  NoDup (map Rand.draws runs) /\
  Z.of_nat (length runs) = n ^ c_n.
Proof.
  intros Hne Hc n runs. subst n runs.
  rewrite start_runs by exact Hne.
  rewrite Z2Nat.id by lia.
  split; [|split; [|split]].
  - intros r Hr. apply in_map_iff in Hr. destruct Hr as (v & <- & Hv).
    apply vectors_In in Hv. destruct Hv as [Hlen Hv].
    cbn [Rand.draws Rand.odds Rand.outcome]. split; [|split; [reflexivity|]].
    + eapply Forall_impl; [|exact Hv].
      intros i Hi. cbv beta in *. apply zrange_In in Hi. lia.
    + exists (launched s_ports v). split; [reflexivity|].
      unfold launched. split; [rewrite length_map; lia|].
      split; [reflexivity|]. apply Forall_map.
      eapply Forall_impl; [|exact Hv].
      intros i Hi. cbv beta in *. apply zrange_In in Hi.
      cbn [client_thread.started client_thread.addr fst snd].
      split; [reflexivity|]. split; [reflexivity|]. apply nth_In. lia.
  - intros v Hlen Hv. eexists. split.
    + apply (in_map _ _ v). apply vectors_In. split; [lia|].
      eapply Forall_impl; [|exact Hv].
      intros i Hi. cbv beta in *. apply zrange_In. lia.
    + reflexivity.
  - rewrite map_map. cbn [Rand.draws]. rewrite map_id.
    apply vectors_NoDup, zrange_NoDup.
  - rewrite length_map, vectors_length, zrange_length, Nat2Z.inj_pow.
    rewrite Z2Nat.id by lia. reflexivity.
Qed.

Lemma start_chooses_targets_uniformly_witness :
  In (Rand.mkRun [1; 0; 1] 8
        (Returned tt,
         Client.mk [50000; 50001] 3
           (Some [client_thread.mk ("localhost"%string, 50001) true;
                  client_thread.mk ("localhost"%string, 50000) true;
                  client_thread.mk ("localhost"%string, 50001) true])))
     (Client.start (Client.init [50000; 50001] 3)) /\
  Forall (fun d => client_thread.started d = true /\
                   fst (client_thread.addr d) = "localhost"%string /\
                   In (snd (client_thread.addr d)) [50000; 50001])
    [client_thread.mk ("localhost"%string, 50001) true;
     client_thread.mk ("localhost"%string, 50000) true;
     client_thread.mk ("localhost"%string, 50001) true] /\
  Z.of_nat (length (Client.start (Client.init [50000; 50001] 3))) =
  Z.of_nat (length [50000; 50001]) ^ 3.
Proof.
  assert (Hne : [50000; 50001] <> []) by discriminate.
  assert (Hc : 1 <= 3) by lia.
  assert (Hin : In (Rand.mkRun [1; 0; 1] 8
                      (Returned tt,
                       Client.mk [50000; 50001] 3
                         (Some [client_thread.mk ("localhost"%string, 50001) true;
                                client_thread.mk ("localhost"%string, 50000) true;
                                client_thread.mk ("localhost"%string, 50001) true])))
                   (Client.start (Client.init [50000; 50001] 3)))
    by (do 5 right; left; reflexivity).
  pose proof (start_chooses_targets_uniformly [50000; 50001] 3 Hne Hc) as H.
  cbv zeta in H. destruct H as (Hruns & _ & _ & Hcount).
  split; [exact Hin|]. split; [|exact Hcount].
  destruct (Hruns _ Hin) as (_ & _ & l & Hout & _ & _ & Hall).
  inversion Hout; subst l. exact Hall.
Defined.

(** C10.  With no target and [c_n >= 1], [Client.start] has a single
    run: [randint(0, -1)] raises [ValueError] in the first iteration,
    before any value is drawn, and [c_list] is as it was. *)
Theorem start_without_targets_raises (c_n : Z)
    (c_list : option (list client_thread.t)) :
  1 <= c_n ->
  Rand.randint 0 (Z.of_nat (length (@nil Z)) - 1) = Raised ValueError /\
  Client.start (Client.mk [] c_n c_list) =
  [Rand.mkRun [] 1 (Raised ValueError, Client.mk [] c_n c_list)].
Proof.
  intros Hc. split; [reflexivity|].
  unfold Client.start. cbn [Client.s_ports Client.c_n].
  destruct (Z.to_nat c_n) as [|k] eqn:Hk; [lia|].
  reflexivity.
Qed.

Lemma start_without_targets_raises_witness :
  Client.start (Client.init [] 50) =
  [Rand.mkRun [] 1 (Raised ValueError, Client.init [] 50)].
Proof.
  apply (start_without_targets_raises 50 (Some [])). lia.
Defined.

(** * Further properties of the code *)

(** ** Server.start: every outcome *)

(** What the loop has done when it ends, either way: it bound [k]
    consecutive ports from [q], each while its condition held, kept one
    started thread for each, and then either found the condition false
    and returned, or met the bind or the listen that failed. *)
Lemma start_loop_outcome free fuel : forall self c q acc h r s' h',
  Server.start_loop free fuel self c q acc h = Some (r, s', h') ->
  exists k : nat,
    (forall x, q <= x < q + Z.of_nat k -> Sys.sock_bind free x = Returned tt) /\
    (k <> 0%nat -> Sys.sock_listen (Server.threads self) = Returned tt) /\
    (forall j, (j < k)%nat ->
       (c + Z.of_nat j <? Server.s_n self) || (65535 <=? q + Z.of_nat j) = true) /\
    s' = Server.mk (Server.threads self) (Server.s_n self)
           (Server.s_list self ++
            map (fun x => server_thread.mk x (Server.threads self) true)
                (zrange q k)) /\
    Sys.listening h' = Sys.listening h ++ named_ports (zrange q k) /\
    ((r = Returned (acc ++ zrange q k) /\
      Sys.bind_log h' = Sys.bind_log h ++ zrange q k /\
      (c + Z.of_nat k <? Server.s_n self) || (65535 <=? q + Z.of_nat k) = false) \/
     (exists e, r = Raised e /\
        (Sys.sock_bind free (q + Z.of_nat k) = Raised e \/
         Sys.sock_bind free (q + Z.of_nat k) = Returned tt /\
         Sys.sock_listen (Server.threads self) = Raised e) /\
        Sys.bind_log h' = Sys.bind_log h ++ zrange q (S k) /\
        (c + Z.of_nat k <? Server.s_n self) || (65535 <=? q + Z.of_nat k) = true)).
Proof.
  induction fuel as [|fuel IH]; intros self c q acc h r s' h' H.
  - simpl in H. destruct ((c <? Server.s_n self) || (65535 <=? q)) eqn:Hc; [discriminate|].
    inversion H; subst. exists 0%nat. simpl. rewrite !app_nil_r, !Z.add_0_r.
    split; [intros; lia|]. split; [congruence|]. split; [intros; lia|].
    split; [now destruct s'|]. split; [reflexivity|]. left. auto.
  - destruct ((c <? Server.s_n self) || (65535 <=? q)) eqn:Hc.
    + rewrite start_loop_step in H by exact Hc.
      unfold server_thread.init in H.
      destruct (Sys.sock_bind free q) as [[]|e] eqn:Hb;
        [destruct (Sys.sock_listen (Server.threads self)) as [[]|e] eqn:Hli|].
      * apply IH in H. cbn [Server.threads Server.s_n Server.s_list] in H.
        destruct H as (k & Hok & _ & Hloop & Hs & Hlis & Hr).
        exists (S k). cbn [zrange map]. rewrite Nat2Z.inj_succ.
        split; [|split; [|split; [|split; [|split]]]].
        -- intros x Hx. destruct (Z.eq_dec x q) as [->|Hne]; [exact Hb|].
           apply Hok. lia.
        -- intros _. reflexivity.
        -- intros [|j] Hj.
           ++ now rewrite !Z.add_0_r.
           ++ rewrite Nat2Z.inj_succ.
              replace (c + Z.succ (Z.of_nat j)) with (c + 1 + Z.of_nat j) by lia.
              replace (q + Z.succ (Z.of_nat j)) with (q + 1 + Z.of_nat j) by lia.
              apply Hloop. lia.
        -- rewrite Hs. unfold server_thread.start. cbn. now rewrite <- app_assoc.
        -- rewrite Hlis. cbn [Sys.listening Sys.bind_log].
           rewrite <- app_assoc. f_equal.
           unfold named_ports. cbn [filter].
           destruct (q =? 0); reflexivity.
        -- replace (c + Z.succ (Z.of_nat k)) with (c + 1 + Z.of_nat k) by lia.
           replace (q + Z.succ (Z.of_nat k)) with (q + 1 + Z.of_nat k) by lia.
           destruct Hr as [(Hr & Hlog & Hend)|(e & Hr & Hfail & Hlog & Hend)].
           ++ left. rewrite Hr, Hlog. cbn. now rewrite <- !app_assoc.
           ++ right. exists e. rewrite Hr, Hlog. cbn [zrange Sys.bind_log].
              rewrite <- !app_assoc.
              split; [reflexivity|]. split; [|split; [reflexivity | exact Hend]].
              destruct Hfail as [Hf|[_ Hf]]; [left; exact Hf|].
              rewrite Hli in Hf. discriminate.
      * inversion H; subst. exists 0%nat. simpl.
        rewrite !app_nil_r, !Z.add_0_r.
        split; [intros; lia|]. split; [congruence|]. split; [intros; lia|].
        split; [now destruct s'|]. split; [reflexivity|].
        right. exists e. auto.
      * inversion H; subst. exists 0%nat. simpl.
        rewrite !app_nil_r, !Z.add_0_r.
        split; [intros; lia|]. split; [congruence|]. split; [intros; lia|].
        split; [now destruct s'|]. split; [reflexivity|].
        right. exists e. auto.
    + rewrite start_loop_exit in H by exact Hc.
      inversion H; subst. exists 0%nat. simpl. rewrite !app_nil_r, !Z.add_0_r.
      split; [intros; lia|]. split; [congruence|]. split; [intros; lia|].
      split; [now destruct s'|]. split; [reflexivity|]. left. auto.
Qed.

(** What is known when [start] has returned. *)
Lemma start_returned free self p h ports s' h' :
  Server.start free self p h = Some (Returned ports, s', h') ->
  p + Z.max 0 (Server.s_n self) < 65535 /\
  (forall x, p <= x < p + Server.s_n self -> Sys.sock_bind free x = Returned tt) /\
  (1 <= Server.s_n self -> Sys.sock_listen (Server.threads self) = Returned tt) /\
  ports = zrange p (Z.to_nat (Server.s_n self)) /\
  Sys.listening h' = Sys.listening h ++ named_ports ports /\
  Sys.bind_log h' = Sys.bind_log h ++ ports.
Proof.
  intros H. unfold Server.start in H.
  apply start_loop_outcome in H.
  destruct H as (k & Hok & Hlisten & Hloop & _ & Hlis &
                 [(Hr & Hlog & Hend)|(e & Hr & _)]);
    [|discriminate].
  apply orb_false_iff in Hend. destruct Hend as [Hcnt Hport].
  apply Z.ltb_ge in Hcnt. apply Z.leb_gt in Hport.
  assert (Hk : Z.of_nat k = Z.max 0 (Server.s_n self)).
  { destruct k as [|j]; [lia|].
    specialize (Hloop j (Nat.lt_succ_diag_r j)).
    apply orb_true_iff in Hloop. destruct Hloop as [Hl|Hl].
    - apply Z.ltb_lt in Hl. lia.
    - apply Z.leb_le in Hl. lia. }
  assert (Hports : ports = zrange p k) by (inversion Hr; reflexivity).
  replace (Z.to_nat (Server.s_n self)) with k by lia.
  split; [lia|]. split; [intros x Hx; apply Hok; lia|].
  split; [intros Hn; apply Hlisten; lia|].
  rewrite Hports. auto.
Qed.

(** X1.  [Server.start] returns normally in one case only: the [s_n]
    ports from the base port can all be bound, the port after them is
    still below 65535 and, if a server is wanted at all, the thread
    count is a backlog [listen] takes, a C int (with [s_n <= 0] that is:
    the base port is below 65535).  What it returns is then exactly these
    ports, in order. *)
Theorem start_returns_iff free self p h ports :
  (exists s' h', Server.start free self p h = Some (Returned ports, s', h')) <->
  p + Z.max 0 (Server.s_n self) < 65535 /\
  (forall x, p <= x < p + Server.s_n self -> Sys.sock_bind free x = Returned tt) /\
  (1 <= Server.s_n self ->
     -2147483648 <= Server.threads self <= 2147483647) /\
  ports = zrange p (Z.to_nat (Server.s_n self)).
Proof.
  split.
  - intros (s' & h' & H). apply start_returned in H.
    destruct H as (Hhi & Hok & Hlisten & Hports & _).
    split; [exact Hhi|]. split; [exact Hok|]. split; [|exact Hports].
    intros Hn. apply sock_listen_int, Hlisten, Hn.
  - intros (Hhi & Hok & Hthreads & ->).
    destruct (Z_le_gt_dec (Server.s_n self) 0) as [Hn|Hn].
    + replace (Z.to_nat (Server.s_n self)) with 0%nat by lia.
      exists self, h. unfold Server.start. apply start_loop_exit.
      apply orb_false_iff. split; [apply Z.ltb_ge | apply Z.leb_gt]; lia.
    + assert (Hp : 0 <= p) by (apply (sock_bind_ok_range free p), Hok; lia).
      destruct (start_loop_free_run free (Z.to_nat (Server.s_n self))
                  (Server.start_fuel p) self 0 p [] h)
        as (s' & h' & Hrun & _).
      * unfold Server.start_fuel. lia.
      * lia.
      * exact Hp.
      * lia.
      * intros x Hx. apply (sock_bind_ok_range free x), Hok. lia.
      * apply sock_listen_int, Hthreads. lia.
      * exists s', h'. exact Hrun.
Qed.

(** X2.  When [Server.start] raises, [k] ports from the base port have
    been bound before, one after the other; they are still listening
    (those asked for by number are on record) and their threads, started,
    are still in [s_list].  The exception is that of the bind on the next
    port, [p + k], or, with nothing bound before, that of the listen on
    the base port just bound, whose backlog, the thread count, is no C
    int.  The binds tried were those on [p, ..., p + k], one each. *)
Theorem start_raise_leaves_servers_bound free self p h e s' h' :
  Server.start free self p h = Some (Raised e, s', h') ->
  exists k : nat,
    (Sys.sock_bind free (p + Z.of_nat k) = Raised e \/
     k = 0%nat /\ Sys.sock_bind free p = Returned tt /\
     Sys.sock_listen (Server.threads self) = Raised e) /\
    (forall x, p <= x < p + Z.of_nat k -> Sys.sock_bind free x = Returned tt) /\
    Sys.bind_log h' = Sys.bind_log h ++ zrange p (S k) /\
    Sys.listening h' = Sys.listening h ++ named_ports (zrange p k) /\
    Server.s_list s' =
      Server.s_list self ++
      map (fun x => server_thread.mk x (Server.threads self) true) (zrange p k).
Proof.
  intros H. unfold Server.start in H. apply start_loop_outcome in H.
  destruct H as (k & Hok & Hlisten & _ & Hs & Hlis &
                 [(Hr & _)|(e' & Hr & Hfail & Hlog & _)]);
    [discriminate|].
  inversion Hr; subst e'. exists k. subst s'.
  split; [|auto].
  destruct Hfail as [Hb|[Hb Hli]]; [left; exact Hb|].
  right. destruct k as [|k].
  - rewrite Z.add_0_r in Hb. auto.
  - rewrite Hlisten in Hli by discriminate. discriminate.
Qed.

Lemma start_raise_leaves_servers_bound_witness :
  exists k : nat,
    (Sys.sock_bind (Sys.free_except 65001) (65000 + Z.of_nat k) = Raised OSError \/
     k = 0%nat /\ Sys.sock_bind (Sys.free_except 65001) 65000 = Returned tt /\
     Sys.sock_listen (Server.threads (Server.init 4 2)) = Raised OSError) /\
    (forall x, 65000 <= x < 65000 + Z.of_nat k ->
       Sys.sock_bind (Sys.free_except 65001) x = Returned tt) /\
    Sys.bind_log (Sys.mkHost [65000; 65001] [65000]) =
      Sys.bind_log Sys.fresh_host ++ zrange 65000 (S k) /\
    Sys.listening (Sys.mkHost [65000; 65001] [65000]) =
      Sys.listening Sys.fresh_host ++ named_ports (zrange 65000 k) /\
    Server.s_list (Server.mk 4 2 [server_thread.mk 65000 4 true]) =
      Server.s_list (Server.init 4 2) ++
      map (fun x => server_thread.mk x (Server.threads (Server.init 4 2)) true)
          (zrange 65000 k).
Proof.
  apply (start_raise_leaves_servers_bound (Sys.free_except 65001)
           (Server.init 4 2) 65000 Sys.fresh_host OSError).
  reflexivity.
Defined.

(** ** server_thread.__run__ *)

Lemma acceptor_quiet fuel peer : forall k done,
  fst (server_thread.__run__ fuel peer k done) = None <->
  forall j, (k <= j < k + fuel)%nat -> swallowed (peer j) = true.
Proof.
  induction fuel as [|fuel IH]; intros k done.
  - simpl. split; [intros _ j Hj; lia | reflexivity].
  - cbn [server_thread.__run__]. unfold Sys.sock_recv.
    assert (Hsplit : (forall j, (k <= j < k + S fuel)%nat -> swallowed (peer j) = true) <->
                     swallowed (peer k) = true /\
                     forall j, (S k <= j < S k + fuel)%nat -> swallowed (peer j) = true).
    { split.
      - intros H. split; [apply H; lia | intros j Hj; apply H; lia].
      - intros [H0 H] j Hj. destruct (Nat.eq_dec j k) as [->|Hne];
          [exact H0 | apply H; lia]. }
    rewrite Hsplit. unfold swallowed at 1.
    destruct (Sys.accept_result (peer k)) as [[]|e].
    + destruct (Sys.recv_result (peer k)) as [sent|e].
      * rewrite IH. tauto.
      * destruct (is_socket_error e).
        -- rewrite IH. tauto.
        -- simpl. split; [discriminate | intros [? _]; discriminate].
    + destruct (is_socket_error e).
      * rewrite IH. tauto.
      * simpl. split; [discriminate | intros [? _]; discriminate].
Qed.

Lemma acceptor_escape fuel peer : forall k done e,
  fst (server_thread.__run__ fuel peer k done) = Some e ->
  is_socket_error e = false.
Proof.
  induction fuel as [|fuel IH]; intros k done e; [discriminate|].
  cbn [server_thread.__run__]. unfold Sys.sock_recv.
  destruct (Sys.accept_result (peer k)) as [[]|e1].
  - destruct (Sys.recv_result (peer k)) as [sent|e2].
    + apply IH.
    + destruct (is_socket_error e2) eqn:He; [apply IH|].
      simpl. intros H. inversion H; subst. exact He.
  - destruct (is_socket_error e1) eqn:He; [apply IH|].
    simpl. intros H. inversion H; subst. exact He.
Qed.

Lemma acceptor_work fuel peer : forall k done,
  let done' := snd (server_thread.__run__ fuel peer k done) in
  (Sys.accepted done <= Sys.accepted done' <= Sys.accepted done + fuel)%nat /\
  exists more,
    Sys.data_read done' = Sys.data_read done ++ more /\
    (length more <= Sys.accepted done' - Sys.accepted done)%nat /\
    Forall (fun d => (length d <= 16)%nat) more.
Proof.
  induction fuel as [|fuel IH]; intros k done; cbn zeta.
  - simpl. split; [lia|]. exists []. rewrite app_nil_r.
    split; [reflexivity|]. split; [simpl; lia | constructor].
  - cbn [server_thread.__run__]. unfold Sys.sock_recv.
    destruct (Sys.accept_result (peer k)) as [[]|e1].
    + destruct (Sys.recv_result (peer k)) as [sent|e2].
      * specialize (IH (S k)
          (Sys.mkServed (S (Sys.accepted done))
             (Sys.data_read done ++ [firstn 16 sent]))).
        cbn zeta in IH. cbn [Sys.accepted Sys.data_read] in *.
        destruct IH as (Hacc & more & Hd & Hl & Hf).
        split; [lia|]. exists (firstn 16 sent :: more).
        rewrite Hd, <- app_assoc. split; [reflexivity|].
        split; [cbn [length]; lia|].
        constructor; [apply firstn_le_length | exact Hf].
      * destruct (is_socket_error e2).
        -- specialize (IH (S k)
             (Sys.mkServed (S (Sys.accepted done)) (Sys.data_read done))).
           cbn zeta in IH. cbn [Sys.accepted Sys.data_read] in *.
           destruct IH as (Hacc & more & Hd & Hl & Hf).
           split; [lia|]. exists more.
           split; [exact Hd|]. split; [lia | exact Hf].
        -- simpl. split; [lia|]. exists []. rewrite app_nil_r.
           split; [reflexivity|]. split; [simpl; lia | constructor].
    + destruct (is_socket_error e1).
      * specialize (IH (S k) done). cbn zeta in IH.
        destruct IH as (Hacc & more & Hd & Hl & Hf).
        split; [lia|]. exists more. auto.
      * simpl. split; [lia|]. exists []. rewrite app_nil_r.
        split; [reflexivity|]. split; [simpl; lia | constructor].
Qed.

(** X4.  An acceptor is still looping after any number of turns exactly
    when, at each of them, accept and read succeeded or failed with a
    socket error; the only thing that ends it is an exception that is
    not a socket error.  In [fuel] turns it accepts at most [fuel]
    connections, reads at most once on each, and never more than 16
    bytes at a time. *)
Theorem acceptor_swallows_socket_errors fuel peer k done :
  let out := server_thread.__run__ fuel peer k done in
  (fst out = None <->
   forall j, (k <= j < k + fuel)%nat -> swallowed (peer j) = true) /\
  (forall e, fst out = Some e -> is_socket_error e = false) /\
  (Sys.accepted done <= Sys.accepted (snd out) <= Sys.accepted done + fuel)%nat /\
  exists more,
    Sys.data_read (snd out) = Sys.data_read done ++ more /\
    (length more <= Sys.accepted (snd out) - Sys.accepted done)%nat /\
    Forall (fun d => (length d <= 16)%nat) more.
Proof.
  cbn zeta. split; [apply acceptor_quiet|].
  split; [intros e; apply acceptor_escape|].
  apply acceptor_work.
Qed.

(** X5.  Once the listening socket is closed every accept fails with a
    socket error; from then on an acceptor goes round its loop without
    end and without doing anything. *)
Theorem acceptor_spins_on_closed_socket fuel peer k done :
  (forall j, (k <= j)%nat -> Sys.accept_result (peer j) = Raised OSError) ->
  server_thread.__run__ fuel peer k done = (None, done).
Proof.
  revert k. induction fuel as [|fuel IH]; intros k Hclosed; [reflexivity|].
  cbn [server_thread.__run__]. rewrite Hclosed by lia. simpl.
  apply IH. intros j Hj. apply Hclosed. lia.
Qed.

Lemma acceptor_spins_on_closed_socket_witness :
  server_thread.__run__ 1000
    (fun _ => Sys.mkIncoming (Raised OSError) (Raised OSError)) 0
    (Sys.mkServed 3 [TEST_MSG; TEST_MSG; TEST_MSG]) =
  (None, Sys.mkServed 3 [TEST_MSG; TEST_MSG; TEST_MSG]).
Proof.
  apply (acceptor_spins_on_closed_socket 1000
           (fun _ => Sys.mkIncoming (Raised OSError) (Raised OSError)) 0%nat).
  intros j _. reflexivity.
Defined.

(** ** EbgException.__str__ and the argument checks *)

(** X6.  The message is "Unknown error!" exactly for a value that is
    none of the four codes, and the four codes have four different
    messages: from the message of a code the code can be told. *)
Theorem str_tells_the_code (value : Z) :
  (Ebg.__str__ value = "Unknown error!"%string <-> ~ (1 <= value <= 4)) /\
  (forall other,
     1 <= value <= 4 -> Ebg.__str__ other = Ebg.__str__ value -> other = value).
Proof.
  unfold Ebg.__str__, Ebg.CLIENT_NUM_ERROR, Ebg.SERVER_NUM_ERROR,
    Ebg.THREAD_NUM_ERROR, Ebg.NO_PORT_TO_USE.
  split.
  - destruct (Z.eqb_spec value 1); [split; [discriminate | lia]|].
    destruct (Z.eqb_spec value 2); [split; [discriminate | lia]|].
    destruct (Z.eqb_spec value 3); [split; [discriminate | lia]|].
    destruct (Z.eqb_spec value 4); [split; [discriminate | lia]|].
    split; [lia | reflexivity].
  - intros other Hv.
    assert (Hc : value = 1 \/ value = 2 \/ value = 3 \/ value = 4) by lia.
    destruct (Z.eqb_spec other 1); [|destruct (Z.eqb_spec other 2);
      [|destruct (Z.eqb_spec other 3); [|destruct (Z.eqb_spec other 4)]]];
      destruct Hc as [-> | [-> | [-> | ->]]]; subst; simpl; intros H;
      first [reflexivity | discriminate H].
Qed.

(** X7.  The script raises an [EbgException] from its argument checks
    only, with the code of the first check that fails, clients before
    servers before threads, and with nothing bound yet. *)
Theorem main_ebg_error_iff free CLIENT_NUM SERVER_NUM THREAD_NUM PORT h value h' :
  Main.main free CLIENT_NUM SERVER_NUM THREAD_NUM PORT h =
    Some (Raised (EbgException value), h') <->
  h' = h /\
  (value = Ebg.CLIENT_NUM_ERROR /\ CLIENT_NUM <= 0 \/
   value = Ebg.SERVER_NUM_ERROR /\ 0 < CLIENT_NUM /\ SERVER_NUM <= 0 \/
   value = Ebg.THREAD_NUM_ERROR /\ 0 < CLIENT_NUM /\ 0 < SERVER_NUM /\
     THREAD_NUM <= 0).
Proof.
  unfold Ebg.CLIENT_NUM_ERROR, Ebg.SERVER_NUM_ERROR, Ebg.THREAD_NUM_ERROR.
  destruct (Z_le_gt_dec CLIENT_NUM 0) as [HC|HC];
    [|destruct (Z_le_gt_dec SERVER_NUM 0) as [HS|HS];
      [|destruct (Z_le_gt_dec THREAD_NUM 0) as [HT|HT]]].
  - unfold Main.main.
    replace (CLIENT_NUM <=? 0) with true by (symmetry; apply Z.leb_le; lia).
    split.
    + intros H. inversion H; subst. split; [reflexivity|]. left.
      split; [reflexivity | exact HC].
    + intros [-> [[-> _]|[[_ [? _]]|[_ [? _]]]]]; [reflexivity | lia | lia].
  - unfold Main.main.
    replace (CLIENT_NUM <=? 0) with false by (symmetry; apply Z.leb_gt; lia).
    replace (SERVER_NUM <=? 0) with true by (symmetry; apply Z.leb_le; lia).
    split.
    + intros H. inversion H; subst. split; [reflexivity|]. right. left.
      repeat split; [lia | exact HS].
    + intros [-> [[_ ?]|[[-> _]|[_ [_ [? _]]]]]]; [lia | reflexivity | lia].
  - unfold Main.main.
    replace (CLIENT_NUM <=? 0) with false by (symmetry; apply Z.leb_gt; lia).
    replace (SERVER_NUM <=? 0) with false by (symmetry; apply Z.leb_gt; lia).
    replace (THREAD_NUM <=? 0) with true by (symmetry; apply Z.leb_le; lia).
    split.
    + intros H. inversion H; subst. split; [reflexivity|]. right. right.
      repeat split; [lia | lia | exact HT].
    + intros [-> [[_ ?]|[[_ [_ ?]]|[-> _]]]]; [lia | lia | reflexivity].
  - split.
    + intros H. exfalso.
      rewrite main_positive_counts in H by lia.
      destruct (Server.start free (Server.init THREAD_NUM SERVER_NUM) PORT h)
        as [[[[ports|e] s'] h1]|] eqn:Hst; [| |discriminate].
      * apply start_nonempty in Hst; [|simpl; lia].
        destruct Hst as [more ->]. discriminate H.
      * apply start_loop_raises in Hst. inversion H; subst.
        destruct Hst; discriminate.
    + intros [_ [[_ ?]|[[_ [_ ?]]|[_ [_ [_ ?]]]]]]; lia.
Qed.

(** ** The script after start-up *)

Lemma zrange_nth n : forall a i,
  (i < n)%nat -> nth i (zrange a n) 0 = a + Z.of_nat i.
Proof.
  induction n as [|n IH]; intros a i Hi; [lia|].
  destruct i as [|i]; simpl zrange; cbn [nth].
  - lia.
  - rewrite IH by lia. lia.
Qed.

(** X8.  When the script gets past start-up, the counts are positive,
    the thread count is a C int, and the ports it hands to [Client] are
    the [SERVER_NUM] ports from [PORT], all below 65535 and each bound
    by one bind of this run.  For [PORT >= 1] these are exactly the ports
    on which the servers now listen.  For [PORT = 0] the first target is
    port 0 itself, on which no server listens: the socket bound through
    port 0 listens elsewhere.  [Client.start] then cannot raise: every
    run leaves [CLIENT_NUM] started threads, each with the address of one
    of the ports handed over. *)
Theorem script_clients_target_bound_ports
    free CLIENT_NUM SERVER_NUM THREAD_NUM PORT h s' s_ports h' :
  Main.main free CLIENT_NUM SERVER_NUM THREAD_NUM PORT h =
    Some (Returned (s', s_ports), h') ->
  (1 <= CLIENT_NUM /\ 1 <= SERVER_NUM /\ 1 <= THREAD_NUM <= 2147483647) /\
  (0 <= PORT /\ PORT + SERVER_NUM < 65535) /\
  s_ports = zrange PORT (Z.to_nat SERVER_NUM) /\
  Sys.bind_log h' = Sys.bind_log h ++ s_ports /\
  Sys.listening h' = Sys.listening h ++ named_ports s_ports /\
  (1 <= PORT -> named_ports s_ports = s_ports) /\
  (PORT = 0 -> In 0 s_ports /\ ~ In 0 (named_ports s_ports)) /\
  forall r, In r (Client.start (Client.init s_ports CLIENT_NUM)) ->
    exists l,
      Rand.outcome r = (Returned tt, Client.mk s_ports CLIENT_NUM (Some l)) /\
      Z.of_nat (length l) = CLIENT_NUM /\
      l = map (fun i =>
                 client_thread.mk
                   ("localhost"%string, nth (Z.to_nat i) s_ports 0) true)
              (Rand.draws r) /\
      Forall (fun d => client_thread.started d = true /\
                       In (snd (client_thread.addr d)) s_ports /\
                       PORT <= snd (client_thread.addr d) < PORT + SERVER_NUM)
             l.
Proof.
  intros H.
  assert (Hpos : 0 < CLIENT_NUM /\ 0 < SERVER_NUM /\ 0 < THREAD_NUM).
  { unfold Main.main in H.
    destruct (Z.leb_spec CLIENT_NUM 0); [discriminate|].
    destruct (Z.leb_spec SERVER_NUM 0); [discriminate|].
    destruct (Z.leb_spec THREAD_NUM 0); [discriminate|]. auto. }
  destruct Hpos as (HC & HS & HT).
  rewrite main_positive_counts in H by assumption.
  destruct (Server.start free (Server.init THREAD_NUM SERVER_NUM) PORT h)
    as [[[[ports|e] s1] h1]|] eqn:Hst; [|discriminate|discriminate].
  destruct (negb (Z.of_nat (length ports) =? 0)); [|discriminate].
  inversion H; subst s1 ports h1. clear H.
  apply start_returned in Hst. cbn [Server.s_n Server.threads Server.init] in Hst.
  destruct Hst as (Hhi & Hok & Hlisten & Hports & Hlis & Hlog).
  assert (Hp : 0 <= PORT) by (apply (sock_bind_ok_range free PORT), Hok; lia).
  assert (Hth : -2147483648 <= THREAD_NUM <= 2147483647)
    by (apply sock_listen_int, Hlisten; lia).
  split; [lia|]. split; [lia|]. split; [exact Hports|].
  split; [exact Hlog|]. split; [exact Hlis|].
  split; [intros H1; rewrite Hports; apply named_ports_zrange; exact H1|].
  split.
  { intros ->. split.
    - rewrite Hports. apply zrange_In. lia.
    - unfold named_ports. intros Hin. apply filter_In in Hin.
      destruct Hin as [_ Hin]. discriminate Hin. }
  intros r Hr.
  assert (Hne : s_ports <> []).
  { rewrite Hports. destruct (Z.to_nat SERVER_NUM) eqn:Hn; [lia | discriminate]. }
  rewrite start_runs in Hr by exact Hne.
  apply in_map_iff in Hr. destruct Hr as (v & <- & Hv).
  apply vectors_In in Hv. destruct Hv as [Hlen Hv].
  exists (launched s_ports v). split; [reflexivity|]. cbn [Rand.draws].
  unfold launched. split; [rewrite length_map; lia|]. split; [reflexivity|].
  apply Forall_map.
  eapply Forall_impl; [|exact Hv].
  intros i Hi. cbv beta in *. apply zrange_In in Hi.
  cbn [client_thread.started client_thread.addr snd].
  split; [reflexivity|]. split; [apply nth_In; lia|].
  rewrite Hports in *. rewrite zrange_length in Hi.
  rewrite zrange_nth by lia. lia.
Qed.

Lemma script_clients_target_bound_ports_witness :
  [50000; 50001] = zrange 50000 (Z.to_nat 2) /\
  Sys.listening (Sys.mkHost [50000; 50001] [50000; 50001]) =
    Sys.listening Sys.fresh_host ++ named_ports [50000; 50001] /\
  named_ports [50000; 50001] = [50000; 50001].
Proof.
  destruct (script_clients_target_bound_ports Sys.all_free 50 2 4 50000
              Sys.fresh_host
              (Server.mk 4 2 [server_thread.mk 50000 4 true;
                              server_thread.mk 50001 4 true])
              [50000; 50001]
              (Sys.mkHost [50000; 50001] [50000; 50001]) eq_refl)
    as (_ & _ & Hports & _ & Hlis & Hnamed & _).
  split; [exact Hports|]. split; [exact Hlis|]. apply Hnamed. lia.
Defined.

(** ** Drivers that cannot reach their port *)

Lemma run_out_of_range self peer fuel k :
  port_in_range (snd (client_thread.addr self)) = false ->
  client_thread.run (S fuel) self peer k Sys.fresh_net =
  Some (died_at_once (peer k)).
Proof.
  intros Hr. cbn [client_thread.run].
  unfold client_thread.connect, client_thread.connect_try, Sys.sock_create,
    Sys.sock_connect, died_at_once. rewrite Hr.
  destruct (Sys.socket_ok (peer k)); reflexivity.
Qed.

Lemma join_loop_out_of_range peers fuel (l : list client_thread.t) : forall i,
  Forall (fun d => port_in_range (snd (client_thread.addr d)) = false) l ->
  Client.join_loop (S fuel) l i peers =
  Some (map (fun j => died_at_once (peers j 0%nat)) (seq i (length l))).
Proof.
  induction l as [|d l IH]; intros i Hall; [reflexivity|].
  inversion Hall as [|? ? Hd Hl]; subst.
  cbn [Client.join_loop map seq length].
  rewrite run_out_of_range by exact Hd. now rewrite IH.
Qed.

Lemma sends_died_at_once peers (js : list nat) :
  sends (map (fun j => died_at_once (peers j 0%nat)) js) = 0%nat.
Proof.
  unfold sends, list_sum. induction js as [|j js IH]; [reflexivity|].
  rewrite !map_cons. cbn [fold_right]. rewrite IH.
  unfold died_at_once. destruct (Sys.socket_ok (peers j 0%nat)); reflexivity.
Qed.

Lemma died_at_once_seq peers (l : list client_thread.t) :
  (forall j, Sys.socket_ok (peers j 0%nat) = true) ->
  forall i,
    map (fun j => died_at_once (peers j 0%nat)) (seq i (length l)) =
    map (fun _ => (Raised OverflowError, Sys.mkNet 1 [] [])) l.
Proof.
  intros Hs. induction l as [|d l IH]; intros i; [reflexivity|].
  cbn [map seq length]. rewrite IH. unfold died_at_once. now rewrite Hs.
Qed.

(** X9.  A driver whose port is outside 0..65535 does not retry: its
    first [connect] ends in [OverflowError], which is no socket error, and
    the thread dies with one socket opened and closed and nothing sent
    (or, when the system has no socket for it, in the error of that, with
    none opened).  [join] on a burst of such drivers returns all the
    same, with no payload sent at all. *)
Theorem join_returns_when_drivers_die
    (s_ports : list Z) (c_n : Z) (l : list client_thread.t) peers fuel :
  Forall (fun d => port_in_range (snd (client_thread.addr d)) = false) l ->
  Client.join (S fuel) (Client.mk s_ports c_n (Some l)) peers =
    Some (Returned (map (fun j => died_at_once (peers j 0%nat))
                        (seq 0 (length l))),
          Client.mk s_ports c_n None) /\
  sends (map (fun j => died_at_once (peers j 0%nat)) (seq 0 (length l))) = 0%nat /\
  ((forall j, Sys.socket_ok (peers j 0%nat) = true) ->
   map (fun j => died_at_once (peers j 0%nat)) (seq 0 (length l)) =
   map (fun _ => (Raised OverflowError, Sys.mkNet 1 [] [])) l).
Proof.
  intros Hall. unfold Client.join. cbn [Client.c_list Client.s_ports Client.c_n].
  rewrite join_loop_out_of_range by exact Hall.
  split; [reflexivity|]. split; [apply sends_died_at_once|].
  intros Hs. apply died_at_once_seq. exact Hs.
Qed.

Lemma join_returns_when_drivers_die_witness :
  Client.join 1 (Client.mk [70000] 2
                   (Some [client_thread.mk ("localhost"%string, 70000) true;
                          client_thread.mk ("localhost"%string, 70000) true]))
    (fun _ _ => Sys.mkAttempt true true true) =
  Some (Returned [(Raised OverflowError, Sys.mkNet 1 [] []);
                  (Raised OverflowError, Sys.mkNet 1 [] [])],
        Client.mk [70000] 2 None).
Proof.
  apply (join_returns_when_drivers_die [70000] 2
           [client_thread.mk ("localhost"%string, 70000) true;
            client_thread.mk ("localhost"%string, 70000) true]
           (fun _ _ => Sys.mkAttempt true true true) 0).
  repeat constructor.
Defined.

(** ** Client.start on any client *)


(** ** client_thread.connect and the other sockets *)

(** X11.  [connect] leaves the open sockets as they were: the one it
    opens is closed again and no other socket is touched, whatever the
    port and however the attempt ends, and sockets stay numbered in the
    order they were created.  One socket number is used up, none when the
    system had no socket to give. *)
Theorem connect_keeps_open_sockets self a n :
  net_wf n ->
  Sys.open_fds (snd (client_thread.connect self a n)) = Sys.open_fds n /\
  Sys.next_fd (snd (client_thread.connect self a n)) =
    (if Sys.socket_ok a then S (Sys.next_fd n) else Sys.next_fd n) /\
  net_wf (snd (client_thread.connect self a n)).
Proof.
  intros Hwf. destruct (connect_open_fds self a n Hwf) as [Ho Hw].
  split; [exact Ho|]. split; [|exact Hw].
  unfold client_thread.connect, client_thread.connect_try, Sys.sock_create,
    Sys.sock_connect, Sys.sock_send, Sys.sock_close.
  destruct (Sys.socket_ok a); [|reflexivity].
  destruct (port_in_range _), (Sys.connect_ok a), (Sys.send_ok a); reflexivity.
Qed.

Lemma connect_keeps_open_sockets_witness :
  Sys.open_fds
    (snd (client_thread.connect (client_thread.init 50000)
            (Sys.mkAttempt true true false) (Sys.mkNet 3 [0%nat; 2%nat] []))) =
  [0%nat; 2%nat].
Proof.
  apply (connect_keeps_open_sockets (client_thread.init 50000)
           (Sys.mkAttempt true true false) (Sys.mkNet 3 [0%nat; 2%nat] [])).
  intros s [<-|[<-|[]]]; simpl; lia.
Defined.
